(** * The Smart Citizen Kit collector: a shallow embedding and its properties

    The collector (collector/collector.py, collector/config.py) polls a
    device document from the Smart Citizen API, turns it into readings,
    writes them to InfluxDB and backs off exponentially on failure.

    The embedding follows the Python text function by function.  Python
    values decoded from JSON are the type [json]; a Python call that can
    raise returns a [pyresult]; the module globals and the store client
    are threaded through [poll_once] and [run] as explicit state.  The
    functions of the standard library ([float], [int],
    [datetime.fromisoformat], [datetime.timestamp], [==]) are embedded as
    CPython 3.11 computes them. *)

From Stdlib Require Import ZArith Lia Bool Ascii String.
From stdpp Require Import base option list strings gmap pretty.

Local Open Scope Z_scope.

(** ** Exceptions and results *)

Inductive exn : Type :=
| AttributeError
| TypeError
| ValueError
| OverflowError
| RequestException (detail : string)
| OtherException (detail : string).

Inductive pyresult (A : Type) : Type :=
| Ok (a : A)
| Raise (e : exn).
Arguments Ok {A} a.
Arguments Raise {A} e.

#[global] Instance pyresult_ret : MRet pyresult := fun A a => Ok a.
#[global] Instance pyresult_bind : MBind pyresult :=
  fun A B f m => match m with Ok a => f a | Raise e => Raise e end.

(** [except requests.RequestException] in [run] catches this class only;
    [except Exception] catches every other one. *)
Definition is_request_exception (e : exn) : bool :=
  match e with RequestException _ => true | _ => false end.

(** ** Python floats

    A Python float is an IEEE 754 binary64 number.  A finite one is kept
    as an integer significand and a binary exponent, [F_fin m e] standing
    for [m * 2^e]; the sign of a zero is not kept.  Every operation is the
    exact result rounded once to nearest, ties to even, with 53 bits of
    precision, gradual underflow below [2^-1022] and overflow to infinity
    from [2^1024]. *)
Module Float64.

Inductive pyfloat : Type :=
| F_nan
| F_inf (negative : bool)
| F_fin (m e : Z).

Definition prec : Z := 53.
Definition emin : Z := -1074.
Definition emax : Z := 1024.

(** [n / 2^k] rounded to the nearest integer, ties to even ([0 <= n],
    [0 < k]). *)
Definition rne (n k : Z) : Z :=
  let q := n / 2 ^ k in
  let r := n mod 2 ^ k in
  let h := 2 ^ (k - 1) in
  if r <? h then q
  else if h <? r then q + 1
  else if Z.even q then q else q + 1.

(** The float nearest to [n * 2^e]. *)
Definition fround (n e : Z) : pyfloat :=
  let a := Z.abs n in
  let k := Z.max 0 (Z.max (Z.log2 a - (prec - 1)) (emin - e)) in
  let m := if k =? 0 then a else rne a k in
  if m =? 0 then F_fin 0 0
  else if emax <=? Z.log2 m + (e + k) then F_inf (n <? 0)
  else F_fin (Z.sgn n * m) (e + k).

(** The float nearest to [(n / d) * 2^e], for [0 < d].  The quotient is
    taken with enough extra bits, and a sticky bit records a remainder. *)
Definition fround_q (n d e : Z) : pyfloat :=
  let a := Z.abs n in
  let s := Z.max 0 (prec + 4 + Z.log2 d - Z.log2 a) in
  let q := (a * 2 ^ s) / d in
  let sticky := if (a * 2 ^ s) mod d =? 0 then 0 else 1 in
  fround (Z.sgn n * (2 * q + sticky)) (e - s - 1).

Definition fmul (x y : pyfloat) : pyfloat :=
  match x, y with
  | F_nan, _ | _, F_nan => F_nan
  | F_inf s, F_inf t => F_inf (xorb s t)
  | F_inf s, F_fin m _ | F_fin m _, F_inf s =>
      if m =? 0 then F_nan else F_inf (xorb s (m <? 0))
  | F_fin m1 e1, F_fin m2 e2 => fround (m1 * m2) (e1 + e2)
  end.

Definition fadd (x y : pyfloat) : pyfloat :=
  match x, y with
  | F_nan, _ | _, F_nan => F_nan
  | F_inf s, F_inf t => if eqb s t then F_inf s else F_nan
  | F_inf s, F_fin _ _ | F_fin _ _, F_inf s => F_inf s
  | F_fin m1 e1, F_fin m2 e2 =>
      let e := Z.min e1 e2 in
      fround (m1 * 2 ^ (e1 - e) + m2 * 2 ^ (e2 - e)) e
  end.

(** [float(z)] for an int: correctly rounded; an int too large for a
    float raises [OverflowError] instead of giving infinity. *)
Definition float_of_int (z : Z) : pyresult pyfloat :=
  match fround z 0 with
  | F_fin m e => Ok (F_fin m e)
  | _ => Raise OverflowError
  end.

(** [int(x)] for a float: truncation toward zero. *)
Definition int_of_float (x : pyfloat) : pyresult Z :=
  match x with
  | F_nan => Raise ValueError
  | F_inf _ => Raise OverflowError
  | F_fin m e => Ok (if 0 <=? e then m * 2 ^ e else Z.quot m (2 ^ (- e)))
  end.

(** [a / b] for two ints with [0 < b]: the true quotient, correctly
    rounded. *)
Definition int_truediv (a b : Z) : pyfloat := fround_q a b 0.

(** [x == z] between a float and an int compares the exact values. *)
Definition float_eq_int (x : pyfloat) (z : Z) : bool :=
  match x with
  | F_fin m e => if 0 <=? e then m * 2 ^ e =? z else m =? z * 2 ^ (- e)
  | _ => false
  end.

Definition float_eq (x y : pyfloat) : bool :=
  match x, y with
  | F_fin m1 e1, F_fin m2 e2 =>
      let e := Z.min e1 e2 in
      m1 * 2 ^ (e1 - e) =? m2 * 2 ^ (e2 - e)
  | F_inf s, F_inf t => eqb s t
  | _, _ => false
  end.

Definition float_is_zero (x : pyfloat) : bool :=
  match x with F_fin m _ => m =? 0 | _ => false end.

(** The int a float is equal to, when there is one (this is what makes
    [55.0] and [55] the same dict key). *)
Definition float_as_int (x : pyfloat) : option Z :=
  match x with
  | F_fin m e =>
      if 0 <=? e then Some (m * 2 ^ e)
      else if m mod 2 ^ (- e) =? 0 then Some (m / 2 ^ (- e)) else None
  | _ => None
  end.

End Float64.
Export Float64.


(** ** Strings as Python sees them

    A [string] stands for the str of which it is the UTF-8 encoding, one
    [ascii] for each byte, as the string literals of this file are read;
    only a str with a lone surrogate has none. *)

Definition code (c : ascii) : Z := Z.of_N (N_of_ascii c).

Definition byte (z : Z) : ascii := ascii_of_N (Z.to_N z).

(** The characters of a text, each with its bytes: one byte below 128,
    and two, three or four bytes from the lead bytes 192, 224 and 240
    on. *)
Fixpoint characters (l : list ascii) : list (list ascii) :=
  match l with
  | [] => []
  | b0 :: l1 =>
      if code b0 <? 128 then [b0] :: characters l1
      else
        match l1 with
        | [] => [[b0]]
        | b1 :: l2 =>
            if code b0 <? 224 then [b0; b1] :: characters l2
            else
              match l2 with
              | [] => [[b0; b1]]
              | b2 :: l3 =>
                  if code b0 <? 240 then [b0; b1; b2] :: characters l3
                  else
                    match l3 with
                    | [] => [[b0; b1; b2]]
                    | b3 :: l4 => [b0; b1; b2; b3] :: characters l4
                    end
              end
        end
  end.

(** The code point of a character: the low bits of its lead byte, then
    six bits of each further byte. *)
Definition code_point (ch : list ascii) : Z :=
  match ch with
  | [b0] => code b0
  | [b0; b1] => code b0 mod 32 * 64 + code b1 mod 64
  | [b0; b1; b2] => (code b0 mod 16 * 64 + code b1 mod 64) * 64 + code b2 mod 64
  | [b0; b1; b2; b3] =>
      ((code b0 mod 8 * 64 + code b1 mod 64) * 64 + code b2 mod 64) * 64
      + code b3 mod 64
  | _ => 0
  end.

Definition is_digit (c : ascii) : bool := (48 <=? code c) && (code c <=? 57).

Definition digit_value (c : ascii) : Z := code c - 48.

(** The white space [float] and [int] strip from both ends of their
    argument ([Py_ISSPACE]): tab to carriage return, and the blank. *)
Definition is_space (c : ascii) : bool :=
  ((9 <=? code c) && (code c <=? 13)) || (code c =? 32).

(** The white space of Unicode 14 ([str.isspace] of one character). *)
Definition is_unicode_space (ch : Z) : bool :=
  ((9 <=? ch) && (ch <=? 13)) || ((28 <=? ch) && (ch <=? 32))
  || (ch =? 133) || (ch =? 160) || (ch =? 5760)
  || ((8192 <=? ch) && (ch <=? 8202))
  || (ch =? 8232) || (ch =? 8233) || (ch =? 8239) || (ch =? 8287)
  || (ch =? 12288).

(** The zeros of the decimal digits of Unicode 14; the digits 1 to 9 of
    each script follow its zero. *)
Definition decimal_zeros : list Z :=
  [ 48; 1632; 1776; 1984; 2406; 2534; 2662; 2790; 2918; 3046; 3174; 3302;
    3430; 3558; 3664; 3792; 3872; 4160; 4240; 6112; 6160; 6470; 6608; 6784;
    6800; 6992; 7088; 7232; 7248; 42528; 43216; 43264; 43472; 43504; 43600;
    44016; 65296; 66720; 68912; 69734; 69872; 69942; 70096; 70384; 70736;
    70864; 71248; 71360; 71472; 71904; 72016; 72784; 73040; 73120; 92768;
    92864; 93008; 120782; 120792; 120802; 120812; 120822; 123200; 123632;
    125264; 130032 ].

(** The value of a decimal digit. *)
Definition to_decimal (ch : Z) : option Z :=
  zero ← find (fun z => (z <=? ch) && (ch <? z + 10)) decimal_zeros;
  Some (ch - zero).

(** What [float] and [int] first do to a str that is not all ASCII
    ([_PyUnicode_TransformDecimalAndSpaceToASCII]): a character below 127
    stays, white space becomes a blank, a decimal digit its ASCII digit,
    and at any other character the text is cut, with a [?] for it. *)
Fixpoint transform_loop (l : list Z) : list ascii :=
  match l with
  | ch :: l' =>
      if ch <? 127 then byte ch :: transform_loop l'
      else if is_unicode_space ch then " "%char :: transform_loop l'
      else
        match to_decimal ch with
        | Some d => byte (48 + d) :: transform_loop l'
        | None => ["?"%char]
        end
  | [] => []
  end.

Definition TransformDecimalAndSpaceToASCII (l : list ascii) : list ascii :=
  if forallb (fun c => code c <? 128) l then l
  else transform_loop (map code_point (characters l)).

Definition lower (c : ascii) : ascii :=
  if (65 <=? code c) && (code c <=? 90)
  then ascii_of_N (Z.to_N (code c + 32)) else c.

Definition chars (s : string) : list ascii := list_ascii_of_string s.

Fixpoint lstrip (l : list ascii) : list ascii :=
  match l with
  | c :: l' => if is_space c then lstrip l' else l
  | [] => []
  end.

Definition strip (l : list ascii) : list ascii :=
  rev (lstrip (rev (lstrip l))).

(** The value of a run of decimal digits, most significant first. *)
Definition decimal_value (ds : list ascii) : Z :=
  fold_left (fun acc c => 10 * acc + digit_value c) ds 0.

(** [str.replace("Z", "+00:00")]: every occurrence is replaced. *)
Fixpoint replace_Z (s : string) : string :=
  match s with
  | EmptyString => EmptyString
  | String c s' =>
      if Ascii.eqb c "Z" then "+00:00" +:+ replace_Z s'
      else String c (replace_Z s')
  end.

(** ** [float(str)]

    The grammar of the language reference:
    [[sign] (digitpart [. [digitpart]] | . digitpart) [(e|E) [sign] digitpart]]
    with [digitpart ::= digit ([_] digit)*], or a signed [inf], [infinity]
    or [nan] in any letter case; white space around it is ignored.
    Anything else raises [ValueError]. *)
Module FloatParse.

(** The rest of a [digitpart] after a digit: [([_] digit)*]. *)
Fixpoint more_digits (l : list ascii) : list ascii * list ascii :=
  match l with
  | c :: l' =>
      if is_digit c then
        let '(ds, r) := more_digits l' in (c :: ds, r)
      else if Ascii.eqb c "_" then
        match l' with
        | d :: l'' =>
            if is_digit d then
              let '(ds, r) := more_digits l'' in (d :: ds, r)
            else ([], l)
        | [] => ([], l)
        end
      else ([], l)
  | [] => ([], [])
  end.

Definition digitpart (l : list ascii) : option (list ascii * list ascii) :=
  match l with
  | c :: l' =>
      if is_digit c then
        let '(ds, r) := more_digits l' in Some (c :: ds, r)
      else None
  | [] => None
  end.

(** An optional sign: [true] for [-]. *)
Definition sign (l : list ascii) : bool * list ascii :=
  match l with
  | c :: l' =>
      if Ascii.eqb c "-" then (true, l')
      else if Ascii.eqb c "+" then (false, l')
      else (false, l)
  | [] => (false, [])
  end.

(** [number]: the digits before and after the point. *)
Definition number (l : list ascii)
  : option (list ascii * list ascii * list ascii) :=
  match digitpart l with
  | Some (ip, r) =>
      match r with
      | c :: r' =>
          if Ascii.eqb c "." then
            match digitpart r' with
            | Some (fp, r'') => Some (ip, fp, r'')
            | None => Some (ip, [], r')
            end
          else Some (ip, [], r)
      | [] => Some (ip, [], [])
      end
  | None =>
      match l with
      | c :: r' =>
          if Ascii.eqb c "." then
            match digitpart r' with
            | Some (fp, r'') => Some ([], fp, r'')
            | None => None
            end
          else None
      | [] => None
      end
  end.

(** [exponent], when the input goes on: the decimal exponent. *)
Definition exponent (l : list ascii) : option Z :=
  match l with
  | [] => Some 0
  | c :: l' =>
      if Ascii.eqb (lower c) "e" then
        let '(neg, l'') := sign l' in
        match digitpart l'' with
        | Some (ds, []) =>
            Some (if neg then - decimal_value ds else decimal_value ds)
        | _ => None
        end
      else None
  end.

(** The float nearest to [d * 10^x]. *)
Definition of_decimal (d x : Z) : pyfloat :=
  if 0 <=? x then fround (d * 10 ^ x) 0 else fround_q d (10 ^ (- x)) 0.

Definition floatnumber (neg : bool) (l : list ascii) : option pyfloat :=
  match number l with
  | Some (ip, fp, r) =>
      match exponent r with
      | Some x =>
          let d := decimal_value (ip ++ fp) in
          Some (of_decimal (if neg then - d else d) (x - Z.of_nat (length fp)))
      | None => None
      end
  | None => None
  end.

Definition float_of_string (s : string) : pyresult pyfloat :=
  let '(neg, l) :=
    sign (strip (TransformDecimalAndSpaceToASCII (chars s))) in
  let word := string_of_list_ascii (map lower l) in
  if String.eqb word "inf" || String.eqb word "infinity" then Ok (F_inf neg)
  else if String.eqb word "nan" then Ok F_nan
  else match floatnumber neg l with
       | Some x => Ok x
       | None => Raise ValueError
       end.

End FloatParse.
Export FloatParse.


Set Warnings "-register-all".

(** ** Decoded JSON documents

    What [resp.json()] returns: [None], a bool, an int, a float, a str, a
    list, or a dict with string keys.  A dict is the list of its items in
    insertion order, with distinct keys. *)

Inductive json : Type :=
| JNull
| JBool (b : bool)
| JInt (z : Z)
| JFloat (x : pyfloat)
| JStr (s : string)
| JList (l : list json)
| JDict (items : list (string * json)).

Fixpoint dict_lookup (k : string) (items : list (string * json)) : option json :=
  match items with
  | [] => None
  | (k', v) :: rest => if String.eqb k k' then Some v else dict_lookup k rest
  end.

(** [o.get(key, default)]: only a dict has the method. *)
Definition py_get (o : json) (key : string) (default : json) : pyresult json :=
  match o with
  | JDict items => Ok (from_option id default (dict_lookup key items))
  | _ => Raise AttributeError
  end.

(** [for s in o]: a list gives its elements, a str its characters, a dict
    its keys; nothing else is iterable. *)
Definition py_iter (o : json) : pyresult (list json) :=
  match o with
  | JList l => Ok l
  | JStr s =>
      Ok (map (fun ch => JStr (string_of_list_ascii ch)) (characters (chars s)))
  | JDict items => Ok (map (fun kv => JStr (fst kv)) items)
  | _ => Raise TypeError
  end.

(** Truth value, as tested by [if], [and], [or] and [not]. *)
Definition py_truthy (o : json) : bool :=
  match o with
  | JNull => false
  | JBool b => b
  | JInt z => negb (z =? 0)
  | JFloat x => negb (float_is_zero x)
  | JStr s => negb (String.eqb s EmptyString)
  | JList l => match l with [] => false | _ => true end
  | JDict items => match items with [] => false | _ => true end
  end.

(** [a or b] *)
Definition py_or (a b : json) : json := if py_truthy a then a else b.

Definition int_of_bool (b : bool) : Z := if b then 1 else 0.

(** [a is b] for two floats that are NaN: the decoder gives the one
    object [json.decoder.NaN] for every [NaN] of a document. *)
Definition same_nan (a b : json) : bool :=
  match a, b with
  | JFloat F_nan, JFloat F_nan => true
  | _, _ => false
  end.

(** [a == b].  Numbers compare by value across bool, int and float, and
    a NaN equals nothing, itself included; dicts compare as sets of
    items.  The elements of two lists and the values of two dicts are
    compared with [is] first, so that there the NaN of the decoder equals
    itself. *)
Fixpoint py_eq (a b : json) {struct a} : bool :=
  match a, b with
  | JNull, JNull => true
  | JBool x, JBool y => Bool.eqb x y
  | JBool x, JInt z | JInt z, JBool x => int_of_bool x =? z
  | JBool x, JFloat f | JFloat f, JBool x => float_eq_int f (int_of_bool x)
  | JInt x, JInt y => x =? y
  | JInt z, JFloat f | JFloat f, JInt z => float_eq_int f z
  | JFloat x, JFloat y => float_eq x y
  | JStr x, JStr y => String.eqb x y
  | JList la, JList lb =>
      (fix list_eq (la lb : list json) {struct la} : bool :=
         match la, lb with
         | [], [] => true
         | x :: la', y :: lb' =>
             (same_nan x y || py_eq x y) && list_eq la' lb'
         | _, _ => false
         end) la lb
  | JDict da, JDict db =>
      (length da =? length db)%nat &&
      (fix items_in (da : list (string * json)) {struct da} : bool :=
         match da with
         | [] => true
         | (k, v) :: da' =>
             match dict_lookup k db with
             | Some w => (same_nan v w || py_eq v w) && items_in da'
             | None => false
             end
         end) da
  | _, _ => false
  end.

(** [float(o)] *)
Definition py_float (o : json) : pyresult pyfloat :=
  match o with
  | JBool b => Ok (F_fin (int_of_bool b) 0)
  | JInt z => float_of_int z
  | JFloat x => Ok x
  | JStr s => float_of_string s
  | JNull | JList _ | JDict _ => Raise TypeError
  end.

(** ** Configuration (config.py) *)

(** The sensor catalog: numeric sensor id to InfluxDB tag name. *)
Definition SENSOR_NAME_MAP : gmap Z string :=
  list_to_map
    [ (55, "temperature"); (56, "humidity"); (53, "noise_dba");
      (14, "light"); (58, "pressure");
      (214, "uv_a"); (215, "uv_b"); (216, "uv_c");
      (193, "pm_1"); (194, "pm_2_5"); (195, "pm_4"); (196, "pm_10");
      (197, "pn_0_5"); (198, "pn_1"); (199, "pn_2_5"); (200, "pn_4");
      (201, "pn_10"); (202, "typical_particle_size");
      (10, "battery"); (220, "wifi_rssi"); (221, "sd_card_present") ]%string.

(** The settings read from the environment, with the defaults of
    config.py. *)
Record config : Type := {
  SCK_DEVICE_ID : string;
  POLL_INTERVAL_SECONDS : Z;
  INFLUXDB_ORG : string;
  INFLUXDB_BUCKET : string
}.

Definition default_config : config := {|
  SCK_DEVICE_ID := "19396";
  POLL_INTERVAL_SECONDS := 60;
  INFLUXDB_ORG := "sck";
  INFLUXDB_BUCKET := "sck_data"
|}.

(** The int a dict key hashes and compares as, for the keys that can
    equal an int. *)
Definition key_as_int (key : json) : option Z :=
  match key with
  | JInt z => Some z
  | JBool b => Some (int_of_bool b)
  | JFloat x => float_as_int x
  | _ => None
  end.

(** [config.SENSOR_NAME_MAP.get(sid)]: [None] when the key is absent, a
    [TypeError] when it cannot be hashed. *)
Definition SENSOR_NAME_MAP_get (sid : json) : pyresult (option string) :=
  match sid with
  | JList _ | JDict _ => Raise TypeError
  | _ => Ok (z ← key_as_int sid; SENSOR_NAME_MAP !! z)
  end.

(** ** Parsing the API response *)

Record reading : Type := {
  sensor_id : json;
  sensor_name : string;
  value : pyfloat;
  timestamp : json
}.

(** [o is None] *)
Definition is_null (o : json) : bool :=
  match o with JNull => true | _ => false end.

(** The body of the [for] loop of [parse_sensors] for one entry [s]:
    [None] where the loop continues without a reading. *)
Definition parse_entry (data s : json) : pyresult (option reading) :=
  sid ← py_get s "id" (JInt (-1));
  name ← SENSOR_NAME_MAP_get sid;
  match name with
  | None => Ok None
  | Some sensor_name =>
      value ← py_get s "value" JNull;
      if is_null value then Ok None
      else
        own ← py_get s "last_reading_at" JNull;
        timestamp_str ←
          (if py_truthy own then Ok own
           else py_get data "last_reading_at" JNull);
        if is_null timestamp_str then Ok None
        else
          x ← py_float value;
          Ok (Some {| sensor_id := sid; sensor_name := sensor_name;
                      value := x; timestamp := timestamp_str |})
  end.

(** The loop, with [readings] the list built so far. *)
Fixpoint parse_loop (data : json) (sensors_raw : list json)
    (readings : list reading) : pyresult (list reading) :=
  match sensors_raw with
  | [] => Ok readings
  | s :: rest =>
      r ← parse_entry data s;
      parse_loop data rest
        (match r with Some x => readings ++ [x] | None => readings end)
  end.

(** What the loop runs over: [data.get("data", {}).get("sensors", [])],
    iterated. *)
Definition sensor_entries (data : json) : pyresult (list json) :=
  inner ← py_get data "data" (JDict []);
  sensors_raw ← py_get inner "sensors" (JList []);
  py_iter sensors_raw.

Definition parse_sensors (data : json) : pyresult (list reading) :=
  entries ← sensor_entries data;
  parse_loop data entries [].


(** ** [datetime.fromisoformat] and [datetime.timestamp]

    [fromisoformat] as CPython 3.11 implements it (in C, the functions
    named below), which reads
    [YYYY-MM-DD], [YYYYMMDD], [YYYY-Www[-D]] or [YYYYWww[D]], then
    optionally any one character and
    [HH[:MM[:SS[(.|,)f+]]]] or [HH[MM[SS[(.|,)f+]]]], then optionally [Z]
    or a sign and an offset spelled like a time.  The C code runs over the
    UTF-8 bytes of the text, which end with a NUL; reading past the end
    gives that NUL.  Every failure raises [ValueError]. *)
Module Datetime.

Record datetime : Type := {
  year : Z; month : Z; day : Z;
  hour : Z; minute : Z; second : Z; microsecond : Z;
  (** offset east of UTC in microseconds; [None] for a naive datetime *)
  utcoffset : option Z
}.

(** *** The calendar *)

Definition _days_in_month : list Z :=
  [0; 31; 28; 31; 30; 31; 30; 31; 31; 30; 31; 30; 31].

Definition _days_before_month : list Z :=
  [0; 0; 31; 59; 90; 120; 151; 181; 212; 243; 273; 304; 334].

Definition is_leap (y : Z) : bool :=
  (y mod 4 =? 0) && (negb (y mod 100 =? 0) || (y mod 400 =? 0)).

Definition days_in_month (y m : Z) : Z :=
  if (m =? 2) && is_leap y then 29 else nth (Z.to_nat m) _days_in_month 0.

(** Days before January 1st of year [y]. *)
Definition days_before_year (y : Z) : Z :=
  let p := y - 1 in p * 365 + p / 4 - p / 100 + p / 400.

(** Days in year [y] before the first day of month [m]. *)
Definition days_before_month (y m : Z) : Z :=
  nth (Z.to_nat m) _days_before_month 0
  + (if (2 <? m) && is_leap y then 1 else 0).

(** Day number, with 0001-01-01 as day 1. *)
Definition ymd_to_ord (y m d : Z) : Z :=
  days_before_year y + days_before_month y m + d.

(** Days in 400, 100 and 4 years. *)
Definition DI400Y : Z := 146097.
Definition DI100Y : Z := 36524.
Definition DI4Y : Z := 1461.

(** The date of a day number, for [1 <= ordinal]. *)
Definition ord_to_ymd (ordinal : Z) : Z * Z * Z :=
  let ordinal := ordinal - 1 in
  let n400 := ordinal / DI400Y in
  let n := ordinal mod DI400Y in
  let n100 := n / DI100Y in
  let n := n mod DI100Y in
  let n4 := n / DI4Y in
  let n := n mod DI4Y in
  let n1 := n / 365 in
  let n := n mod 365 in
  let year := n400 * 400 + 1 + n100 * 100 + n4 * 4 + n1 in
  if (n1 =? 4) || (n100 =? 4) then (year - 1, 12, 31)
  else
    let leapyear := (n1 =? 3) && (negb (n4 =? 24) || (n100 =? 3)) in
    let month := Z.shiftr (n + 50) 5 in
    let preceding :=
      nth (Z.to_nat month) _days_before_month 0
      + (if (2 <? month) && leapyear then 1 else 0) in
    let '(month, preceding) :=
      if n <? preceding
      then (month - 1, preceding - days_in_month year (month - 1))
      else (month, preceding) in
    (year, month, n - preceding + 1).

(** 0 for a Monday, 6 for a Sunday. *)
Definition weekday (y m d : Z) : Z := (ymd_to_ord y m d + 6) mod 7.

(** The day number of the Monday that starts ISO week 1 of [year]. *)
Definition iso_week1_monday (year : Z) : Z :=
  let first_day := ymd_to_ord year 1 1 in
  let first_weekday := (first_day + 6) mod 7 in
  let week1_monday := first_day - first_weekday in
  if 3 <? first_weekday then week1_monday + 7 else week1_monday.

(** The date of day [iso_day] of week [iso_week] of [iso_year].  A year
    has a week 53 when it starts on a Thursday, or on a Wednesday and is
    a leap year.  The year 0 is refused. *)
Definition iso_to_ymd (iso_year iso_week iso_day : Z) : option (Z * Z * Z) :=
  if iso_year <? 1 then None
  else
    let first_weekday := weekday iso_year 1 1 in
    let week_ok :=
      if (iso_week <=? 0) || (53 <=? iso_week) then
        (iso_week =? 53)
        && ((first_weekday =? 3) || ((first_weekday =? 2) && is_leap iso_year))
      else true in
    if negb week_ok then None
    else if (iso_day <=? 0) || (8 <=? iso_day) then None
    else
      let day_1 := iso_week1_monday iso_year in
      let day_offset := (iso_week - 1) * 7 + iso_day - 1 in
      Some (ord_to_ymd (day_1 + day_offset)).

(** *** The text *)

Definition NUL : ascii := "000"%char.

(** [PyUnicode_AsUTF8AndSize] *)
Definition AsUTF8 (s : string) : list ascii := chars s.

(** [s[p]] in C. *)
Definition byte_at (s : list ascii) (p : Z) : ascii :=
  if p <? 0 then NUL else nth (Z.to_nat p) s NUL.

(** The length of the run of digits at the head of [l]. *)
Fixpoint digits_run (l : list ascii) : Z :=
  match l with
  | c :: l' => if is_digit c then 1 + digits_run l' else 0
  | [] => 0
  end.

(** [parse_digits]: [num_digits] digits from [p] on, added to [var];
    the result is the number and the position after it. *)
Fixpoint parse_digits (s : list ascii) (p var : Z) (num_digits : nat)
  : option (Z * Z) :=
  match num_digits with
  | O => Some (var, p)
  | S n =>
      let c := byte_at s p in
      if is_digit c then parse_digits s (p + 1) (var * 10 + digit_value c) n
      else None
  end.

(** [if (uses_separator && *(p++) != '-') return -2;] *)
Definition skip_separator (s : list ascii) (uses_separator : bool) (p : Z)
  : option Z :=
  if uses_separator
  then (if Ascii.eqb (byte_at s p) "-" then Some (p + 1) else None)
  else Some p.

(** A [Py_ssize_t] taken as a [size_t]. *)
Definition size_t (z : Z) : Z := z mod 2 ^ 64.

(** [parse_isoformat_date]: the date in the first [len] bytes. *)
Definition parse_isoformat_date (dtstr : list ascii) (len : Z)
  : option (Z * Z * Z) :=
  '(year, p) ← parse_digits dtstr 0 0 4;
  let uses_separator := Ascii.eqb (byte_at dtstr p) "-" in
  let p := if uses_separator then p + 1 else p in
  if Ascii.eqb (byte_at dtstr p) "W" then
    '(iso_week, p) ← parse_digits dtstr (p + 1) 0 2;
    if p <? len then
      p ← skip_separator dtstr uses_separator p;
      '(iso_day, _) ← parse_digits dtstr p 0 1;
      iso_to_ymd year iso_week iso_day
    else iso_to_ymd year iso_week 1
  else
    '(month, p) ← parse_digits dtstr p 0 2;
    p ← skip_separator dtstr uses_separator p;
    '(day, _) ← parse_digits dtstr p 0 2;
    Some (year, month, day).

(** [_find_isoformat_datetime_separator]: where the date ends, from its
    bytes 4 and 5 and the digits after a week; -1 when it cannot tell. *)
Definition _find_isoformat_datetime_separator (dtstr : list ascii) (len : Z)
  : Z :=
  if len =? 7 then 7
  else if Ascii.eqb (byte_at dtstr 4) "-" then
    if Ascii.eqb (byte_at dtstr 5) "W" then
      if len <? 8 then -1
      else if (8 <? len) && Ascii.eqb (byte_at dtstr 8) "-" then
        if len =? 9 then -1
        else if (10 <? len) && is_digit (byte_at dtstr 10) then 8
        else 10
      else 8
    else 10
  else if Ascii.eqb (byte_at dtstr 4) "W" then
    (* the first index from 7 on that holds no digit *)
    let idx := 7 + digits_run (drop 7 dtstr) in
    if idx <? 9 then idx
    else if idx mod 2 =? 0 then 7
    else 8
  else 8.

Definition correction : list Z := [100000; 10000; 1000; 100; 10].

(** The fraction of a second from [p] on, up to [p_end]: at most six
    digits count and further digits are skipped.  The flag tells whether
    the text goes on after it. *)
Definition parse_fraction (tstr : list ascii) (p p_end : Z)
  : option (Z * bool) :=
  let len_remains := p_end - p in
  let to_parse := if 6 <=? len_remains then 6 else len_remains in
  '(microsecond, p) ← parse_digits tstr p 0 (Z.to_nat to_parse);
  let microsecond :=
    if to_parse <? 6
    then microsecond * nth (Z.to_nat (to_parse - 1)) correction 0
    else microsecond in
  let p := p + digits_run (drop (Z.to_nat p) tstr) in
  Some (microsecond, negb (Ascii.eqb (byte_at tstr p) NUL)).

(** How one turn of the loop over hour, minute and second ends. *)
Inductive turn : Type :=
| Return (rest : bool)
| Continue (p : Z) (has_separator : bool)
| Break (p : Z).

(** One turn: two digits at [p] and the character after them.  In the
    first turn ([first]) that character tells whether colons are in
    use. *)
Definition hms_turn (tstr : list ascii) (p_end : Z) (first : bool)
    (has_separator : bool) (p : Z) : option (Z * turn) :=
  '(val, p) ← parse_digits tstr p 0 2;
  let c := byte_at tstr p in
  let p := p + 1 in
  let has_separator := if first then Ascii.eqb c ":" else has_separator in
  if p_end <=? p then Some (val, Return (negb (Ascii.eqb c NUL)))
  else if has_separator && Ascii.eqb c ":" then
    Some (val, Continue p has_separator)
  else if Ascii.eqb c "." || Ascii.eqb c "," then Some (val, Break p)
  else if negb has_separator then Some (val, Continue (p - 1) has_separator)
  else None.

(** [parse_hh_mm_ss_ff]: the time between [p] and [p_end], and whether
    the text goes on after what was read. *)
Definition parse_hh_mm_ss_ff (tstr : list ascii) (p p_end : Z)
  : option (Z * Z * Z * Z * bool) :=
  '(hour, t) ← hms_turn tstr p_end true true p;
  match t with
  | Return rest => Some (hour, 0, 0, 0, rest)
  | Break p =>
      '(us, rest) ← parse_fraction tstr p p_end; Some (hour, 0, 0, us, rest)
  | Continue p has_separator =>
      '(minute, t) ← hms_turn tstr p_end false has_separator p;
      match t with
      | Return rest => Some (hour, minute, 0, 0, rest)
      | Break p =>
          '(us, rest) ← parse_fraction tstr p p_end;
          Some (hour, minute, 0, us, rest)
      | Continue p has_separator =>
          '(second, t) ← hms_turn tstr p_end false has_separator p;
          match t with
          | Return rest => Some (hour, minute, second, 0, rest)
          | Break p | Continue p _ =>
              '(us, rest) ← parse_fraction tstr p p_end;
              Some (hour, minute, second, us, rest)
          end
      end
  end.

Definition is_tz_start (c : ascii) : bool :=
  Ascii.eqb c "Z" || Ascii.eqb c "+" || Ascii.eqb c "-".

(** How far the first [Z], [+] or [-] is. *)
Fixpoint tz_distance (l : list ascii) : Z :=
  match l with
  | c :: l' => if is_tz_start c then 0 else 1 + tz_distance l'
  | [] => 0
  end.

(** [parse_isoformat_time]: the time in the [dtlen] bytes from [p] on,
    which are the rest of the text, with the offset as whole seconds and
    microseconds when there is one. *)
Definition parse_isoformat_time (dtstr : list ascii) (p dtlen : Z)
  : option (Z * Z * Z * Z * option (Z * Z)) :=
  let p_end := p + dtlen in
  (* [do ... while (++tzinfo_pos < p_end)] moves once on an empty text *)
  let tzinfo_pos :=
    if dtlen =? 0 then p + 1
    else p + tz_distance (drop (Z.to_nat p) dtstr) in
  '(hour, minute, second, microsecond, rest) ←
    parse_hh_mm_ss_ff dtstr p tzinfo_pos;
  if tzinfo_pos =? p_end then
    if negb rest
    then Some (hour, minute, second, microsecond, @None (Z * Z))
    else None
  else if Ascii.eqb (byte_at dtstr tzinfo_pos) "Z" then
    if Ascii.eqb (byte_at dtstr (tzinfo_pos + 1)) NUL
    then Some (hour, minute, second, microsecond, Some (0, 0))
    else None
  else
    let tzsign := if Ascii.eqb (byte_at dtstr tzinfo_pos) "-" then -1 else 1 in
    '(tzhour, tzminute, tzsecond, tzmicrosecond, rest) ←
      parse_hh_mm_ss_ff dtstr (tzinfo_pos + 1) p_end;
    if negb rest
    then Some (hour, minute, second, microsecond,
               Some (tzsign * (tzhour * 3600 + tzminute * 60 + tzsecond),
                     tzsign * tzmicrosecond))
    else None.

(** [tzinfo_from_isoformat_results]: an offset of zero whole seconds is
    UTC, whatever its microseconds. *)
Definition tzinfo_from_isoformat_results (tz : option (Z * Z)) : option Z :=
  match tz with
  | Some (tzoffset, tz_useconds) =>
      Some (if tzoffset =? 0 then 0 else tzoffset * 1000000 + tz_useconds)
  | None => None
  end.

(** The bytes the separator at [b] takes. *)
Definition separator_width (b : ascii) : Z :=
  if Z.land (code b) 128 =? 0 then 1
  else if Z.land (code b) 240 =? 224 then 3
  else if Z.land (code b) 240 =? 240 then 4
  else 2.

Definition day_us : Z := 86400 * 1000000.

(** The range checks of the [datetime] and [timezone] constructors. *)
Definition valid (dt : datetime) : bool :=
  (1 <=? year dt) && (year dt <=? 9999) &&
  (1 <=? month dt) && (month dt <=? 12) &&
  (1 <=? day dt) && (day dt <=? days_in_month (year dt) (month dt)) &&
  (0 <=? hour dt) && (hour dt <=? 23) &&
  (0 <=? minute dt) && (minute dt <=? 59) &&
  (0 <=? second dt) && (second dt <=? 59) &&
  (0 <=? microsecond dt) && (microsecond dt <=? 999999) &&
  match utcoffset dt with
  | Some off => (- day_us <? off) && (off <? day_us)
  | None => true
  end.

(** The fields read from [date_string], before the range checks. *)
Definition parse (dt : list ascii) : option datetime :=
  let len := Z.of_nat (length dt) in
  if len <? 7 then None
  else
    let separator_location := _find_isoformat_datetime_separator dt len in
    '(year, month, day) ← parse_isoformat_date dt (size_t separator_location);
    '(hour, minute, second, microsecond, tz) ←
      (if separator_location <? len then
         let p := separator_location
                  + separator_width (byte_at dt separator_location) in
         parse_isoformat_time dt p (len - p)
       else Some (0, 0, 0, 0, @None (Z * Z)));
    Some {| year := year; month := month; day := day;
            hour := hour; minute := minute; second := second;
            microsecond := microsecond;
            utcoffset := tzinfo_from_isoformat_results tz |}.

Definition fromisoformat (date_string : string) : pyresult datetime :=
  match parse (AsUTF8 date_string) with
  | Some dt => if valid dt then Ok dt else Raise ValueError
  | None => Raise ValueError
  end.

(** [datetime(1970, 1, 1).toordinal()] *)
Definition epoch_ordinal : Z := 719163.

(** Seconds from 1970-01-01T00:00:00 to the wall-clock time of [dt],
    without its microseconds. *)
Definition wall_seconds (dt : datetime) : Z :=
  (ymd_to_ord (year dt) (month dt) (day dt) - epoch_ordinal) * 86400
  + hour dt * 3600 + minute dt * 60 + second dt.

(** Microseconds from the epoch to the instant an aware [dt] denotes. *)
Definition epoch_microseconds (dt : datetime) (off : Z) : Z :=
  wall_seconds dt * 1000000 + microsecond dt - off.

(** [dt.timestamp()].  For an aware datetime this is
    [(dt - epoch).total_seconds()], the int of microseconds divided by
    [10**6].  A naive one is read in the local zone of the process, taken
    to be UTC here, and computed as [seconds + microsecond / 1e6]; the
    search for its zone looks one day back, which raises [ValueError] on
    0001-01-01. *)
Definition timestamp (dt : datetime) : pyresult pyfloat :=
  match utcoffset dt with
  | Some off => Ok (int_truediv (epoch_microseconds dt off) 1000000)
  | None =>
      if ymd_to_ord (year dt) (month dt) (day dt) - 1 <? 1
      then Raise ValueError
      else Ok (fadd (fround (wall_seconds dt) 0)
                    (int_truediv (microsecond dt) 1000000))
  end.

End Datetime.

(** ** Nanosecond timestamps *)

(** [iso_str.replace] exists on a str only; on any other value the
    attribute lookup raises. *)
Definition _iso_to_ns (iso_str : json) : pyresult Z :=
  match iso_str with
  | JStr s =>
      dt ← Datetime.fromisoformat (replace_Z s);
      ts ← Datetime.timestamp dt;
      int_of_float (fmul ts (F_fin 1000000000 0))
  | _ => Raise AttributeError
  end.


(** ** Writing to the store *)

(** One line of the line protocol,
    [sck_sensors,device_id=<d>,sensor_name=<n> value=<v> <ns>],
    kept as its four holes. *)
Record point : Type := {
  point_device_id : string;
  point_sensor_name : string;
  point_value : pyfloat;
  point_ts_ns : Z
}.

(** The text of a line, given how a float prints. *)
Definition line_text (repr : pyfloat → string) (p : point) : string :=
  "sck_sensors,device_id=" +:+ point_device_id p +:+
  ",sensor_name=" +:+ point_sensor_name p +:+
  " value=" +:+ repr (point_value p) +:+ " " +:+ pretty (point_ts_ns p).

(** A call of [write_api.write]: [record] is the lines, joined by newlines
    in the source. *)
Record write_call : Type := {
  bucket : string;
  org : string;
  record : list point
}.

(** The store client, as the calls it has received. *)
Record client : Type := {
  write_api_calls : nat;
  write_calls : list write_call
}.

(** The [for] loop of [write_to_influxdb], with [lines] the list built so
    far. *)
Fixpoint encode_loop (readings : list reading) (device_id : string)
    (lines : list point) : pyresult (list point) :=
  match readings with
  | [] => Ok lines
  | r :: rest =>
      ts_ns ← _iso_to_ns (timestamp r);
      encode_loop rest device_id
        (lines ++ [{| point_device_id := device_id;
                      point_sensor_name := sensor_name r;
                      point_value := value r;
                      point_ts_ns := ts_ns |}])
  end.

(** [store] is what the store does with a write: [Some e] when the call
    raises [e].  The result is the returned count or the exception,
    together with the client afterwards. *)
Definition write_to_influxdb (cfg : config) (store : option exn)
    (cl : client) (readings : list reading) (device_id : string)
  : pyresult Z * client :=
  match readings with
  | [] => (Ok 0, cl)
  | _ =>
      let cl1 := {| write_api_calls := S (write_api_calls cl);
                    write_calls := write_calls cl |} in
      match encode_loop readings device_id [] with
      | Raise e => (Raise e, cl1)
      | Ok lines =>
          let cl2 :=
            {| write_api_calls := write_api_calls cl1;
               write_calls :=
                 write_calls cl1 ++
                 [{| bucket := INFLUXDB_BUCKET cfg; org := INFLUXDB_ORG cfg;
                     record := lines |}] |} in
          match store with
          | Some e => (Raise e, cl2)
          | None => (Ok (Z.of_nat (length lines)), cl2)
          end
      end
  end.

(** ** The poll cycle *)

(** The module globals of collector.py. *)
Record poll_state : Type := {
  _last_poll_ts : option string;
  _polls_total : Z;
  _last_reading_at : json
}.

Definition initial_poll_state : poll_state :=
  {| _last_poll_ts := None; _polls_total := 0; _last_reading_at := JNull |}.

(** What the logger is given. *)
Inductive log_record : Type :=
| Debug_skipping_duplicate (device_reading_at : json)
| Warning_no_valid_readings
| Info_written (count : Z) (device_reading_at : json) (polls_total : Z)
| Error_api_request_failed (attempt wait : Z) (exc : exn)
| Exception_unexpected_error (attempt wait : Z) (exc : exn).

Record world : Type := {
  globals : poll_state;
  store_client : client;
  logged : list log_record
}.

(** What one cycle meets outside the process: the outcome of
    [fetch_device_data], what the store does with a write, and the clock
    ([datetime.now(timezone.utc).isoformat()]). *)
Record cycle_env : Type := {
  fetched : pyresult json;
  store : option exn;
  utc_now : string
}.

Definition log (w : world) (r : log_record) : world :=
  {| globals := globals w; store_client := store_client w;
     logged := logged w ++ [r] |}.

(** Duplicate detection:
    [device_reading_at and device_reading_at == _last_reading_at]. *)
Definition is_duplicate (device_reading_at : json) (g : poll_state) : bool :=
  py_truthy device_reading_at && py_eq device_reading_at (_last_reading_at g).

Definition poll_once (cfg : config) (env : cycle_env) (w : world)
  : pyresult unit * world :=
  match fetched env with
  | Raise e => (Raise e, w)
  | Ok data =>
      match py_get data "last_reading_at" JNull with
      | Raise e => (Raise e, w)
      | Ok device_reading_at =>
          if is_duplicate device_reading_at (globals w)
          then (Ok (), log w (Debug_skipping_duplicate device_reading_at))
          else
            match parse_sensors data with
            | Raise e => (Raise e, w)
            | Ok [] => (Ok (), log w Warning_no_valid_readings)
            | Ok readings =>
                match write_to_influxdb cfg (store env) (store_client w)
                        readings (SCK_DEVICE_ID cfg) with
                | (Raise e, cl) =>
                    (Raise e, {| globals := globals w; store_client := cl;
                                 logged := logged w |})
                | (Ok count, cl) =>
                    let g := {| _last_poll_ts := Some (utc_now env);
                                _polls_total := _polls_total (globals w) + 1;
                                _last_reading_at := device_reading_at |} in
                    (Ok (),
                     {| globals := g; store_client := cl;
                        logged := logged w ++
                          [Info_written count device_reading_at
                             (_polls_total g)] |})
                end
            end
      end
  end.

(** The body of the [/health] answer. *)
Definition health_body (g : poll_state) : json :=
  JDict [ ("status", JStr "ok");
          ("last_poll", from_option JStr JNull (_last_poll_ts g));
          ("polls_total", JInt (_polls_total g)) ]%string.

(** ** Backoff and the main loop *)

(** [min(2**attempt, 300)], for the attempts the loop passes
    ([1 <= attempt]; a negative power would be a float in Python). *)
Definition _backoff_sleep (attempt : Z) : Z := Z.min (2 ^ attempt) 300.

(** The state of the [while] loop of [run]: its local counter, the
    timeouts it has passed to [_shutdown_event.wait], and the world. *)
Record loop_state : Type := {
  consecutive_errors : Z;
  waits : list Z;
  loop_world : world
}.

(** One turn of the loop. *)
Definition run_iteration (cfg : config) (env : cycle_env) (ls : loop_state)
  : loop_state :=
  match poll_once cfg env (loop_world ls) with
  | (Ok _, w) =>
      {| consecutive_errors := 0;
         waits := waits ls ++ [POLL_INTERVAL_SECONDS cfg];
         loop_world := w |}
  | (Raise exc, w) =>
      let consecutive_errors' := consecutive_errors ls + 1 in
      let wait := _backoff_sleep consecutive_errors' in
      {| consecutive_errors := consecutive_errors';
         waits := waits ls ++ [wait];
         loop_world :=
           log w (if is_request_exception exc
                  then Error_api_request_failed consecutive_errors' wait exc
                  else Exception_unexpected_error consecutive_errors' wait exc) |}
  end.

(** The loop from its start, over the cycles that take place before the
    shutdown event is set. *)
Definition run (cfg : config) (schedule : list cycle_env) (w : world)
  : loop_state :=
  fold_left (fun ls env => run_iteration cfg env ls) schedule
    {| consecutive_errors := 0; waits := []; loop_world := w |}.



(** ** Vocabulary of the statements *)

(** [s] names the whole second [E] of the epoch: with its [Z] replaced it
    parses to an aware datetime without microseconds, [E] seconds after
    1970-01-01T00:00:00+00:00. *)
Definition whole_second (s : string) (E : Z) : Prop :=
  ∃ dt off,
    Datetime.fromisoformat (replace_Z s) = Ok dt ∧
    Datetime.utcoffset dt = Some off ∧
    Datetime.epoch_microseconds dt off = E * 1000000.

(** The same, as a test that runs. *)
Definition is_whole_second (s : string) (E : Z) : bool :=
  match Datetime.fromisoformat (replace_Z s) with
  | Ok dt =>
      match Datetime.utcoffset dt with
      | Some off => Datetime.epoch_microseconds dt off =? E * 1000000
      | None => false
      end
  | Raise _ => false
  end.

(** The reading [r] has a catalog id, its catalog name and a timestamp. *)
Definition reading_ok (r : reading) : Prop :=
  ∃ z, key_as_int (sensor_id r) = Some z ∧
       z ∈ dom SENSOR_NAME_MAP ∧
       SENSOR_NAME_MAP !! z = Some (sensor_name r) ∧
       timestamp r ≠ JNull.

(** The reading [r] is the entry [s] of the payload [data]: its id, its
    value made a float, and its own timestamp or else the payload's. *)
Definition reading_from (data s : json) (r : reading) : Prop :=
  py_get s "id" (JInt (-1)) = Ok (sensor_id r) ∧
  (∃ v, py_get s "value" JNull = Ok v ∧ v ≠ JNull ∧
        py_float v = Ok (value r)) ∧
  (∃ own, py_get s "last_reading_at" JNull = Ok own ∧
          if py_truthy own then timestamp r = own
          else py_get data "last_reading_at" JNull = Ok (timestamp r)).

Definition hashable (o : json) : bool :=
  match o with JList _ | JDict _ => false | _ => true end.

Definition is_ok {A} (r : pyresult A) : bool :=
  match r with Ok _ => true | Raise _ => false end.

(** An entry that is an object, with an id that can be a dict key and a
    value that is absent, null or accepted by [float]. *)
Definition entry_ok (s : json) : bool :=
  match s with
  | JDict items =>
      hashable (from_option id (JInt (-1)) (dict_lookup "id" items)) &&
      match dict_lookup "value" items with
      | Some v => is_null v || is_ok (py_float v)
      | None => true
      end
  | _ => false
  end.

(** A payload that is an object, whose [data] is absent or an object,
    whose [sensors] is absent or a list of such entries. *)
Definition payload_ok (data : json) : bool :=
  match data with
  | JDict items =>
      match dict_lookup "data" items with
      | None => true
      | Some (JDict inner) =>
          match dict_lookup "sensors" inner with
          | None => true
          | Some (JList entries) => forallb entry_ok entries
          | Some _ => false
          end
      | Some _ => false
      end
  | _ => false
  end.

(** A catalog-listed entry with a timestamp whose value is present and
    refused by [float]. *)
Definition unparseable_entry (data s : json) : Prop :=
  ∃ sid name v own ts e,
    py_get s "id" (JInt (-1)) = Ok sid ∧
    SENSOR_NAME_MAP_get sid = Ok (Some name) ∧
    py_get s "value" JNull = Ok v ∧ v ≠ JNull ∧
    py_get s "last_reading_at" JNull = Ok own ∧
    (if py_truthy own then Ok own
     else py_get data "last_reading_at" JNull) = Ok ts ∧
    ts ≠ JNull ∧
    py_float v = Raise e.

Definition with_client (w : world) (cl : client) : world :=
  {| globals := globals w; store_client := cl; logged := logged w |}.

(** The five ways a cycle ends. *)
Inductive poll_outcome (cfg : config) (env : cycle_env) (w : world)
  : pyresult unit * world → Prop :=
| cycle_raised_before_write e :
    fetched env = Raise e ∨
    (∃ data, fetched env = Ok data ∧
       (py_get data "last_reading_at" JNull = Raise e ∨
        ∃ ts, py_get data "last_reading_at" JNull = Ok ts ∧
              is_duplicate ts (globals w) = false ∧
              parse_sensors data = Raise e)) →
    poll_outcome cfg env w (Raise e, w)
| cycle_skipped data ts :
    fetched env = Ok data →
    py_get data "last_reading_at" JNull = Ok ts →
    is_duplicate ts (globals w) = true →
    poll_outcome cfg env w (Ok (), log w (Debug_skipping_duplicate ts))
| cycle_empty data ts :
    fetched env = Ok data →
    py_get data "last_reading_at" JNull = Ok ts →
    is_duplicate ts (globals w) = false →
    parse_sensors data = Ok [] →
    poll_outcome cfg env w (Ok (), log w Warning_no_valid_readings)
| cycle_write_raised data ts r rs e cl :
    fetched env = Ok data →
    py_get data "last_reading_at" JNull = Ok ts →
    is_duplicate ts (globals w) = false →
    parse_sensors data = Ok (r :: rs) →
    write_to_influxdb cfg (store env) (store_client w) (r :: rs)
      (SCK_DEVICE_ID cfg) = (Raise e, cl) →
    poll_outcome cfg env w (Raise e, with_client w cl)
| cycle_written data ts r rs count cl :
    fetched env = Ok data →
    py_get data "last_reading_at" JNull = Ok ts →
    is_duplicate ts (globals w) = false →
    parse_sensors data = Ok (r :: rs) →
    write_to_influxdb cfg (store env) (store_client w) (r :: rs)
      (SCK_DEVICE_ID cfg) = (Ok count, cl) →
    poll_outcome cfg env w
      (Ok (),
       {| globals := {| _last_poll_ts := Some (utc_now env);
                        _polls_total := _polls_total (globals w) + 1;
                        _last_reading_at := ts |};
          store_client := cl;
          logged := logged w ++
            [Info_written count ts (_polls_total (globals w) + 1)] |}).

(** ** Sample documents and states *)

Definition T1 : string := "2026-02-04T17:00:47Z".

(** The float [21.4]. *)
Definition float_21_4 : pyfloat := F_fin 6023564501608038 (-48).

(** Sensors [{55: 21.4, 9999: 1.0 (unmapped), 56: null}] at [T1]. *)
Definition scenario_A : json :=
  JDict [ ("last_reading_at", JStr T1);
          ("data", JDict [ ("sensors", JList [
             JDict [("id", JInt 55); ("value", JFloat float_21_4)];
             JDict [("id", JInt 9999); ("value", JFloat (F_fin 1 0))];
             JDict [("id", JInt 56); ("value", JNull)] ]) ]) ]%string.

(** A mapped sensor whose value is the string [abc], after a good one. *)
Definition bad_value_doc : json :=
  JDict [ ("last_reading_at", JStr T1);
          ("data", JDict [ ("sensors", JList [
             JDict [("id", JInt 55); ("value", JFloat float_21_4)];
             JDict [("id", JInt 56); ("value", JStr "abc")] ]) ]) ]%string.

(** One sensor with its own timestamp, under the given top-level members. *)
Definition one_sensor_data : list (string * json) :=
  [ ("data", JDict [ ("sensors", JList [
       JDict [("id", JInt 55); ("value", JFloat float_21_4);
              ("last_reading_at", JStr T1)] ]) ]) ]%string.

Definition one_sensor_doc (top : list (string * json)) : json :=
  JDict (top ++ one_sensor_data).

(** A top-level timestamp that is the empty string. *)
Definition empty_timestamp_doc : json :=
  one_sensor_doc [("last_reading_at", JStr EmptyString)]%string.

(** A top-level timestamp one minute before [T1]. *)
Definition earlier_doc : json :=
  one_sensor_doc [("last_reading_at", JStr "2026-02-04T16:59:47Z")]%string.

(** No top-level timestamp at all. *)
Definition no_timestamp_doc : json := one_sensor_doc [].

Definition empty_client : client :=
  {| write_api_calls := 0; write_calls := [] |}.

Definition initial_world : world :=
  {| globals := initial_poll_state; store_client := empty_client;
     logged := [] |}.

(** The world after one written poll of a document stamped [ts]. *)
Definition world_after (ts : json) : world :=
  {| globals := {| _last_poll_ts := Some "2026-02-04T17:01:00+00:00"%string;
                   _polls_total := 1;
                   _last_reading_at := ts |};
     store_client := empty_client;
     logged := [] |}.

(** A cycle that fetches [doc] and whose store accepts the write. *)
Definition fetch_ok (doc : json) : cycle_env :=
  {| fetched := Ok doc; store := None;
     utc_now := "2026-02-04T17:02:00+00:00" |}.

(** A cycle that fetches [doc] and whose store refuses the write. *)
Definition store_down (doc : json) : cycle_env :=
  {| fetched := Ok doc; store := Some (OtherException "influxdb write failed");
     utc_now := "2026-02-04T17:02:00+00:00" |}.

(** A cycle whose fetch raises [e]. *)
Definition fetch_fails (e : exn) : cycle_env :=
  {| fetched := Raise e; store := None;
     utc_now := "2026-02-04T17:02:00+00:00" |}.

(** ** Vocabulary of the further properties *)

(** The line [p] is the reading [r] written for [device_id]. *)
Definition point_of (device_id : string) (r : reading) (p : point) : Prop :=
  point_device_id p = device_id ∧
  point_sensor_name p = sensor_name r ∧
  point_value p = value r ∧
  _iso_to_ns (timestamp r) = Ok (point_ts_ns p).

(** The entries the loop of [parse_sensors] passes over: an object whose
    id is not in the catalog (or absent), or whose id can be hashed and
    whose value is [None] or absent. *)
Definition skipped_entry (s : json) : Prop :=
  ∃ items, s = JDict items ∧
    let sid := from_option id (JInt (-1)) (dict_lookup "id" items) in
    SENSOR_NAME_MAP_get sid = Ok None ∨
    (hashable sid = true ∧
     is_null (from_option id JNull (dict_lookup "value" items)) = true).

(** A character that needs no escaping in a tag value of the line
    protocol: a lower-case letter, a digit or an underscore. *)
Definition tag_char (c : ascii) : bool :=
  ((97 <=? code c) && (code c <=? 122)) || is_digit c || (code c =? 95).

Definition tag_safe (name : string) : bool := forallb tag_char (chars name).

(** The exceptions the collector's own code can raise. *)
Definition is_builtin_error (e : exn) : bool :=
  match e with
  | AttributeError | TypeError | ValueError | OverflowError => true
  | _ => false
  end.

(** The last record given to the logger. *)
Definition last_logged (w : world) : option log_record := last (logged w).

(** The loop from any state. *)
Definition run_from (cfg : config) (schedule : list cycle_env)
    (ls : loop_state) : loop_state :=
  fold_left (fun ls env => run_iteration cfg env ls) schedule ls.

(** ** The healthcheck endpoint *)







(** ** Fetching the device document *)

(** A response of [requests.get]: its status and what [resp.json()]
    gives. *)
Record http_response : Type := {
  status_code : Z;
  json_body : pyresult json
}.

(** [resp.raise_for_status()]: an [HTTPError], which is a
    [RequestException], for a status from 400 to 599. *)
Definition raise_for_status (resp : http_response) : pyresult unit :=
  if (400 <=? status_code resp) && (status_code resp <? 600)
  then Raise (RequestException "HTTPError")
  else Ok ().

(** [f"{config.SCK_API_BASE}/devices/{config.SCK_DEVICE_ID}"] *)
Definition device_url (api_base device_id : string) : string :=
  api_base +:+ "/devices/" +:+ device_id.

(** [fetch_device_data], with [get] standing for [requests.get]: a
    response, or the exception of a failed request. *)
Definition fetch_device_data (api_base : string) (cfg : config)
    (get : string → pyresult http_response) : pyresult json :=
  resp ← get (device_url api_base (SCK_DEVICE_ID cfg));
  _ ← raise_for_status resp;
  json_body resp.

(** The cycle that fetches through [get]. *)
Definition cycle_with (api_base : string) (cfg : config)
    (get : string → pyresult http_response) (store : option exn)
    (utc_now : string) : cycle_env :=
  {| fetched := fetch_device_data api_base cfg get;
     store := store; utc_now := utc_now |}.

(** ** Loading the configuration (config.py) *)

(** [int(s)] for a str, in base 10: an optional sign and digits, with
    single underscores between digits and white space around; at most
    4300 digits, the interpreter's default limit.  Anything else raises
    [ValueError]. *)
Definition int_of_string (s : string) : pyresult Z :=
  let '(neg, l) :=
    FloatParse.sign (strip (TransformDecimalAndSpaceToASCII (chars s))) in
  match digitpart l with
  | Some (ds, []) =>
      if (4300 <? length ds)%nat then Raise ValueError
      else Ok (if neg then - decimal_value ds else decimal_value ds)
  | _ => Raise ValueError
  end.

(** [_env]: [os.environ.get(key, default)]. *)
Definition _env (environ : gmap string string) (key default : string) : string :=
  from_option id default (environ !! key).

(** The module-level names of config.py, but [LOG_LEVEL] and the catalog. *)
Module Settings.

Record t : Type := {
  SCK_DEVICE_ID : string;
  SCK_API_BASE : string;
  POLL_INTERVAL_SECONDS : Z;
  INFLUXDB_URL : string;
  INFLUXDB_TOKEN : string;
  INFLUXDB_ORG : string;
  INFLUXDB_BUCKET : string;
  HEALTH_PORT : Z
}.

(** The assignments of config.py, in their order. *)
Definition load (environ : gmap string string) : pyresult t :=
  let device_id := _env environ "SCK_DEVICE_ID" "19396" in
  let api_base := _env environ "SCK_API_BASE" "https://api.smartcitizen.me/v0" in
  poll_interval ← int_of_string (_env environ "POLL_INTERVAL_SECONDS" "60");
  let url := _env environ "INFLUXDB_URL" "http://influxdb:8086" in
  let token := _env environ "INFLUXDB_TOKEN" "my-super-secret-token" in
  let org := _env environ "INFLUXDB_ORG" "sck" in
  let bucket := _env environ "INFLUXDB_BUCKET" "sck_data" in
  health_port ← int_of_string (_env environ "HEALTH_PORT" "8000");
  Ok {| SCK_DEVICE_ID := device_id; SCK_API_BASE := api_base;
        POLL_INTERVAL_SECONDS := poll_interval;
        INFLUXDB_URL := url; INFLUXDB_TOKEN := token;
        INFLUXDB_ORG := org; INFLUXDB_BUCKET := bucket;
        HEALTH_PORT := health_port |}.

(** The variables config.py reads. *)
Definition names : list string :=
  [ "SCK_DEVICE_ID"; "SCK_API_BASE"; "POLL_INTERVAL_SECONDS";
    "INFLUXDB_URL"; "INFLUXDB_TOKEN"; "INFLUXDB_ORG"; "INFLUXDB_BUCKET";
    "LOG_LEVEL"; "HEALTH_PORT" ]%string.

End Settings.

(** The settings the poll cycle and the loop use. *)
Definition config_of (s : Settings.t) : config :=
  {| SCK_DEVICE_ID := Settings.SCK_DEVICE_ID s;
     POLL_INTERVAL_SECONDS := Settings.POLL_INTERVAL_SECONDS s;
     INFLUXDB_ORG := Settings.INFLUXDB_ORG s;
     INFLUXDB_BUCKET := Settings.INFLUXDB_BUCKET s |}.

(** ** Further sample values *)

(** The reading of scenario A and its line. *)
Definition reading_A : reading :=
  {| sensor_id := JInt 55; sensor_name := "temperature";
     value := float_21_4; timestamp := JStr T1 |}.

Definition point_A : point :=
  {| point_device_id := "19396"; point_sensor_name := "temperature";
     point_value := float_21_4; point_ts_ns := 1770224447000000000 |}.

Definition call_A : write_call :=
  {| bucket := "sck_data"; org := "sck"; record := [point_A] |}.

(** A reading whose timestamp is no ISO 8601 text. *)
Definition reading_bad_time : reading :=
  {| sensor_id := JInt 56; sensor_name := "humidity";
     value := F_fin 70 0; timestamp := JStr "yesterday" |}.

(** A document with a timestamp and an empty sensor list. *)
Definition no_sensors_doc : json :=
  JDict [ ("last_reading_at", JStr T1);
          ("data", JDict [ ("sensors", JList []) ]) ]%string.

(** The entries of scenario A. *)
Definition entry_55 : json :=
  JDict [("id", JInt 55); ("value", JFloat float_21_4)]%string.
Definition entry_9999 : json :=
  JDict [("id", JInt 9999); ("value", JFloat (F_fin 1 0))]%string.
Definition entry_56_null : json :=
  JDict [("id", JInt 56); ("value", JNull)]%string.

(** A payload stamped [T1] with the given entries. *)
Definition payload_of (entries : list json) : json :=
  JDict [ ("last_reading_at", JStr T1);
          ("data", JDict [ ("sensors", JList entries) ]) ]%string.

(** A server that answers every request with 503 and a good document. *)
Definition unavailable (url : string) : pyresult http_response :=
  Ok {| status_code := 503; json_body := Ok scenario_A |}.

Definition loop_start (w : world) : loop_state :=
  {| consecutive_errors := 0; waits := []; loop_world := w |}.


(** The instant 2026-02-04T17:00:47.123456 UTC. *)
Definition instant_A : Datetime.datetime :=
  {| Datetime.year := 2026; Datetime.month := 2; Datetime.day := 4;
     Datetime.hour := 17; Datetime.minute := 0; Datetime.second := 47;
     Datetime.microsecond := 123456; Datetime.utcoffset := Some 0 |}.


(** * Properties *)

(** ** Exact float results

    A product or quotient whose exact value fits in 53 bits is not
    rounded. *)

Lemma rne_exact (a k : Z) :
  0 < k → a mod 2 ^ k = 0 → rne a k = a / 2 ^ k.
Proof.
  intros Hk Hr. unfold rne. rewrite Hr.
  assert (0 < 2 ^ (k - 1)) by (apply Z.pow_pos_nonneg; lia).
  destruct (Z.ltb_spec 0 (2 ^ (k - 1))); [done | lia].
Qed.

Lemma fround_zero (e : Z) : emin ≤ e → fround 0 e = F_fin 0 0.
Proof.
  intros He. unfold fround, emin, prec in *.
  change (Z.abs 0) with 0. change (Z.log2 0) with 0.
  replace (Z.max 0 (Z.max (0 - (53 - 1)) (-1074 - e))) with 0 by lia.
  reflexivity.
Qed.

Lemma fround_exact (n e x j : Z) :
  emin ≤ e ≤ 0 → 0 ≤ j ≤ 900 → Z.abs x < 2 ^ 53 → n = x * 2 ^ (j - e) →
  ∃ e', e ≤ e' ≤ j ∧ fround n e = F_fin (x * 2 ^ (j - e')) e'.
Proof.
  intros He Hj Hx ->.
  destruct (Z.eq_dec x 0) as [-> | Hx0].
  { exists 0. split; [lia |]. rewrite !Z.mul_0_l. apply fround_zero. lia. }
  unfold emin in He.
  assert (Hp : 0 < 2 ^ (j - e)) by (apply Z.pow_pos_nonneg; lia).
  set (a := Z.abs x).
  assert (Ha : 0 < a) by (unfold a; lia).
  assert (Habs : Z.abs (x * 2 ^ (j - e)) = a * 2 ^ (j - e)).
  { rewrite Z.abs_mul, (Z.abs_eq (2 ^ _)); [done | lia]. }
  assert (Hlog : Z.log2 (a * 2 ^ (j - e)) = (j - e) + Z.log2 a).
  { apply Z.log2_mul_pow2; lia. }
  assert (Hla : 0 ≤ Z.log2 a < 53).
  { split; [apply Z.log2_nonneg |]. apply Z.log2_lt_pow2; [lia | done]. }
  unfold fround. rewrite Habs, Hlog. unfold prec, emin, emax.
  set (k := Z.max 0 (Z.max (j - e + Z.log2 a - (53 - 1)) (-1074 - e))).
  assert (Hk : 0 ≤ k ≤ j - e) by (unfold k; lia).
  assert (Hsplit : a * 2 ^ (j - e) = (a * 2 ^ (j - e - k)) * 2 ^ k).
  { rewrite <- Z.mul_assoc, <- Z.pow_add_r by lia. do 2 f_equal. lia. }
  assert (Hpk : 0 < 2 ^ k) by (apply Z.pow_pos_nonneg; lia).
  assert (Hpr : 0 < 2 ^ (j - e - k)) by (apply Z.pow_pos_nonneg; lia).
  assert (Hm : (if k =? 0 then a * 2 ^ (j - e) else rne (a * 2 ^ (j - e)) k)
               = a * 2 ^ (j - e - k)).
  { destruct (Z.eqb_spec k 0) as [Hk0 | Hk0].
    - rewrite Hk0, Z.sub_0_r. done.
    - rewrite rne_exact; [| lia |].
      + rewrite Hsplit, Z.div_mul; lia.
      + rewrite Hsplit. apply Z.mod_mul. lia. }
  rewrite Hm.
  destruct (Z.eqb_spec (a * 2 ^ (j - e - k)) 0) as [H0 | _].
  { pose proof (Z.mul_pos_pos _ _ Ha Hpr). lia. }
  rewrite Z.log2_mul_pow2 by lia.
  destruct (Z.leb_spec 1024 (j - e - k + Z.log2 a + (e + k))) as [Hov | _];
    [lia |].
  exists (e + k). split; [lia |]. f_equal.
  replace (j - (e + k)) with (j - e - k) by lia.
  rewrite Z.sgn_mul, (Z.sgn_pos (2 ^ _)) by lia.
  rewrite Z.mul_1_r, Z.mul_assoc. f_equal. unfold a. lia.
Qed.

Lemma fround_q_exact (v d : Z) :
  0 < d → Z.log2 d ≤ 900 → Z.abs v < 2 ^ 53 →
  ∃ e', emin ≤ e' ≤ 0 ∧ int_truediv (v * d) d = F_fin (v * 2 ^ (- e')) e'.
Proof.
  intros Hd Hl Hv. unfold int_truediv, fround_q, prec.
  set (a := Z.abs (v * d)).
  set (s := Z.max 0 (53 + 4 + Z.log2 d - Z.log2 a)).
  assert (Hs : 0 ≤ s ≤ 957).
  { pose proof (Z.log2_nonneg a). unfold s. lia. }
  assert (Hps : 0 < 2 ^ s) by (apply Z.pow_pos_nonneg; lia).
  assert (Ha : a * 2 ^ s = (Z.abs v * 2 ^ s) * d).
  { unfold a. rewrite Z.abs_mul, (Z.abs_eq d) by lia. lia. }
  rewrite Ha, Z.div_mul, Z.mod_mul by lia. cbn [Z.eqb].
  destruct (fround_exact (Z.sgn (v * d) * (2 * (Z.abs v * 2 ^ s) + 0))
              (0 - s - 1) v 0) as (e' & He' & ->).
  - unfold emin. lia.
  - lia.
  - done.
  - rewrite Z.sgn_mul, (Z.sgn_pos d) by lia.
    replace (0 - (0 - s - 1)) with (s + 1) by lia.
    rewrite Z.pow_add_r by lia.
    rewrite Z.add_0_r, Z.pow_1_r.
    transitivity ((Z.sgn v * Z.abs v) * (2 ^ s * 2)); [lia |].
    f_equal. lia.
  - exists e'. split; [unfold emin; lia |]. repeat f_equal; lia.
Qed.

(** [int(x * 10**9)] when [x] holds the integer [v] and [v * 5^9] fits. *)
Lemma scale_seconds_exact (v e : Z) :
  emin ≤ e ≤ 0 → Z.abs v * 5 ^ 9 < 2 ^ 53 →
  int_of_float (fmul (F_fin (v * 2 ^ (- e)) e) (F_fin 1000000000 0))
  = Ok (v * 1000000000).
Proof.
  intros He Hv. cbn [fmul].
  destruct (fround_exact (v * 2 ^ (- e) * 1000000000) (e + 0) (v * 5 ^ 9) 9)
    as (e' & He' & ->).
  - lia.
  - lia.
  - rewrite Z.abs_mul, (Z.abs_eq (5 ^ 9)); lia.
  - replace (9 - (e + 0)) with (9 + - e) by lia.
    rewrite Z.pow_add_r by lia. lia.
  - cbn [int_of_float]. f_equal.
    assert (0 < 2 ^ (9 - e')) by (apply Z.pow_pos_nonneg; lia).
    destruct (Z.leb_spec 0 e') as [Hpos | Hneg].
    + rewrite <- Z.mul_assoc, <- Z.pow_add_r by lia.
      replace (9 - e' + e') with 9 by lia. lia.
    + replace (9 - e') with (9 + - e') by lia.
      rewrite Z.pow_add_r by lia.
      assert (0 < 2 ^ (- e')) by (apply Z.pow_pos_nonneg; lia).
      rewrite Z.mul_assoc, Z.quot_mul by lia. lia.
Qed.

(** ** Nanosecond timestamps *)

Lemma string_app_assoc (s t u : string) : (s +:+ t) +:+ u = s +:+ t +:+ u.
Proof.
  induction s as [| c s IH]; [done |].
  change ((String c s +:+ t) +:+ u) with (String c ((s +:+ t) +:+ u)).
  by rewrite IH.
Qed.

Lemma replace_Z_app (s t : string) :
  replace_Z (s +:+ t) = replace_Z s +:+ replace_Z t.
Proof.
  induction s as [| c s IH]; [done |].
  change (String c s +:+ t) with (String c (s +:+ t)).
  cbn [replace_Z]. rewrite IH.
  destruct (Ascii.eqb c "Z"); [| done].
  by rewrite string_app_assoc.
Qed.

Lemma is_whole_second_true (s : string) (E : Z) :
  is_whole_second s E = true → whole_second s E.
Proof.
  unfold is_whole_second, whole_second.
  destruct (Datetime.fromisoformat (replace_Z s)) as [dt |]; [| done].
  destruct (Datetime.utcoffset dt) as [off |] eqn:Hoff; [| done].
  intros H%Z.eqb_eq. by exists dt, off.
Qed.

Lemma iso_to_ns_whole_second (s : string) (E : Z) :
  whole_second s E → Z.abs E ≤ 4611686018 →
  _iso_to_ns (JStr s) = Ok (E * 1000000000).
Proof.
  intros (dt & off & Hparse & Hoff & Hus) HE.
  unfold _iso_to_ns. rewrite Hparse. cbn [mbind pyresult_bind].
  unfold Datetime.timestamp. rewrite Hoff, Hus.
  destruct (fround_q_exact E 1000000) as (e & He & ->); [lia | | lia |].
  - change (Z.log2 1000000) with 19. lia.
  - apply scale_seconds_exact; [done | lia].
Qed.

(** Claim C5, as the code has it.  A trailing [Z] is read as [+00:00].
    The result for an aware timestamp is [int] of the float product of
    [dt.timestamp()] and [10**9].  For a whole-second timestamp at most
    4611686018 seconds from the epoch (until 2116-02-20) the result is
    exactly the seconds times [10**9], and two such timestamps 60 seconds
    apart give results [60_000_000_000] apart. *)
Theorem C5_iso_to_ns_whole_seconds :
  (∀ s, _iso_to_ns (JStr (s +:+ "Z")) = _iso_to_ns (JStr (s +:+ "+00:00"))) ∧
  (∀ s dt off,
     Datetime.fromisoformat (replace_Z s) = Ok dt →
     Datetime.utcoffset dt = Some off →
     _iso_to_ns (JStr s)
     = int_of_float
         (fmul (int_truediv (Datetime.epoch_microseconds dt off) 1000000)
               (F_fin 1000000000 0))) ∧
  (∀ s E, whole_second s E → Z.abs E ≤ 4611686018 →
     _iso_to_ns (JStr s) = Ok (E * 1000000000)) ∧
  (∀ t t' E, whole_second t E → whole_second t' (E + 60) →
     Z.abs E ≤ 4611686018 → Z.abs (E + 60) ≤ 4611686018 →
     ∃ n n', _iso_to_ns (JStr t) = Ok n ∧ _iso_to_ns (JStr t') = Ok n' ∧
             n' - n = 60000000000).
Proof.
  split; [| split; [| split]].
  - intros s. unfold _iso_to_ns. by rewrite !replace_Z_app.
  - intros s dt off Hparse Hoff. unfold _iso_to_ns, Datetime.timestamp.
    rewrite Hparse. cbn [mbind pyresult_bind]. by rewrite Hoff.
  - apply iso_to_ns_whole_second.
  - intros t t' E Ht Ht' HE HE'.
    exists (E * 1000000000), ((E + 60) * 1000000000).
    split; [by apply iso_to_ns_whole_second |].
    split; [by apply iso_to_ns_whole_second | lia].
Qed.

(** The timestamp of the test suite and the one a minute later. *)
Lemma C5_witness :
  _iso_to_ns (JStr "2026-02-04T17:00:47Z") = Ok 1770224447000000000 ∧
  ∃ n n', _iso_to_ns (JStr "2026-02-04T17:00:47Z") = Ok n ∧
          _iso_to_ns (JStr "2026-02-04T17:01:47+00:00") = Ok n' ∧
          n' - n = 60000000000.
Proof.
  assert (H1 : whole_second "2026-02-04T17:00:47Z" 1770224447)
    by (apply is_whole_second_true; vm_compute; reflexivity).
  assert (H2 : whole_second "2026-02-04T17:01:47+00:00" (1770224447 + 60))
    by (apply is_whole_second_true; vm_compute; reflexivity).
  destruct C5_iso_to_ns_whole_seconds as (_ & _ & Hs & Hd).
  split.
  - apply (Hs _ 1770224447 H1). lia.
  - apply (Hd _ _ 1770224447 H1 H2); lia.
Defined.

(** Claim C5 fails as stated.  The whole second 2200-01-01T00:00:01Z is
    512 ns short of its exact value, and the two instants around
    2038-01-19T03:14:08Z, 60 seconds apart, give results 59999999744 ns
    apart. *)
Lemma C5_counterexample :
  whole_second "2200-01-01T00:00:01Z" 7258118401 ∧
  _iso_to_ns (JStr "2200-01-01T00:00:01Z") = Ok 7258118400999999488 ∧
  7258118400999999488 ≠ 7258118401 * 1000000000 ∧
  _iso_to_ns (JStr "2038-01-19T03:13:30.000003Z") = Ok 2147483610000003072 ∧
  _iso_to_ns (JStr "2038-01-19T03:14:30.000003Z") = Ok 2147483670000002816 ∧
  2147483670000002816 - 2147483610000003072 ≠ 60000000000.
Proof.
  split; [apply is_whole_second_true; vm_compute; reflexivity |].
  repeat split; vm_compute; congruence.
Qed.

(** ** The normalizer *)

Lemma bind_Ok {A B} (m : pyresult A) (f : A → pyresult B) (b : B) :
  m ≫= f = Ok b → ∃ a, m = Ok a ∧ f a = Ok b.
Proof. destruct m as [a | e]; [by exists a | done]. Qed.

Lemma SENSOR_NAME_MAP_get_Some (sid : json) (name : string) :
  SENSOR_NAME_MAP_get sid = Ok (Some name) →
  ∃ z, key_as_int sid = Some z ∧ SENSOR_NAME_MAP !! z = Some name.
Proof.
  intros H.
  assert (H' : key_as_int sid ≫= (SENSOR_NAME_MAP !!.) = Some name).
  { destruct sid; try done; injection H as H; exact H. }
  apply bind_Some in H' as (z & Hz & Hname). by exists z.
Qed.

Lemma is_null_false (o : json) : is_null o = false ↔ o ≠ JNull.
Proof. by destruct o. Qed.

(** A kept entry gives the reading its fields. *)
Lemma parse_entry_Some (data s : json) (r : reading) :
  parse_entry data s = Ok (Some r) → reading_ok r ∧ reading_from data s r.
Proof.
  unfold parse_entry. intros H.
  apply bind_Ok in H as (sid & Hsid & H).
  apply bind_Ok in H as ([name |] & Hname & H); [| done].
  apply bind_Ok in H as (v & Hv & H).
  destruct (is_null v) eqn:Hnull; [done |].
  apply bind_Ok in H as (own & Hown & H).
  apply bind_Ok in H as (ts & Hts & H).
  destruct (is_null ts) eqn:Hts0; [done |].
  apply bind_Ok in H as (x & Hx & [= <-]).
  apply SENSOR_NAME_MAP_get_Some in Hname as (z & Hz & Hlook).
  apply is_null_false in Hnull, Hts0.
  split.
  - exists z. cbn. repeat split; try done.
    apply elem_of_dom. by eexists.
  - repeat split; cbn; [done | by exists v |].
    exists own. split; [done |]. by destruct (py_truthy own); simplify_eq.
Qed.

(** The loop appends to what it was given, in the order of the entries. *)
Lemma parse_loop_sublist (data : json) (entries : list json) :
  ∀ acc rs, parse_loop data entries acc = Ok rs →
  ∃ kept new, rs = acc ++ new ∧ kept `sublist_of` entries ∧
              Forall2 (λ s r, parse_entry data s = Ok (Some r)) kept new.
Proof.
  induction entries as [| s entries IH]; intros acc rs H.
  - injection H as <-. exists [], []. by rewrite app_nil_r.
  - cbn [parse_loop] in H. apply bind_Ok in H as (o & Ho & H).
    apply IH in H as (kept & new & -> & Hsub & Hall).
    destruct o as [r |].
    + exists (s :: kept), (r :: new). rewrite <- app_assoc.
      split; [done |]. split; [by apply sublist_skip | by constructor].
    + exists kept, new. split; [done |]. split; [by apply sublist_cons | done].
Qed.

(** Claim C3.  Whenever [parse_sensors] returns, every reading has an id
    that is a key of the catalog, the catalog's name for it and a
    timestamp that is not [None]; and the readings are, in the order of
    the input, the readings of some of the entries: each has the id of
    its entry, the float of its value, which is not [None], and the
    entry's own timestamp or else the payload's. *)
Theorem C3_parse_sensors_readings (data : json) (rs : list reading) :
  parse_sensors data = Ok rs →
  Forall reading_ok rs ∧
  ∃ entries kept,
    sensor_entries data = Ok entries ∧
    kept `sublist_of` entries ∧
    Forall2 (reading_from data) kept rs.
Proof.
  unfold parse_sensors. intros H.
  apply bind_Ok in H as (entries & Hentries & H).
  apply parse_loop_sublist in H as (kept & new & -> & Hsub & Hall).
  cbn [app]. split.
  - clear Hsub. induction Hall as [| s r kept new Hr _ IH]; constructor.
    + by apply parse_entry_Some in Hr as [? _].
    + done.
  - exists entries, kept. repeat split; [done.. |].
    eapply Forall2_impl; [done |]. intros s r Hr.
    by apply parse_entry_Some in Hr as [_ ?].
Qed.

(** Only a dict has [get]. *)
Lemma py_get_Ok (o : json) (key : string) (default v : json) :
  py_get o key default = Ok v → ∃ items, o = JDict items.
Proof. destruct o; try done. by eexists. Qed.

Lemma py_get_dict (items : list (string * json)) (key : string) (default : json) :
  py_get (JDict items) key default
  = Ok (from_option id default (dict_lookup key items)).
Proof. done. Qed.

Lemma sensor_entries_dict (data : json) (entries : list json) :
  sensor_entries data = Ok entries → ∃ items, data = JDict items.
Proof.
  unfold sensor_entries. intros H.
  apply bind_Ok in H as (inner & Hinner & _). by eapply py_get_Ok.
Qed.

Lemma parse_entry_unparseable (data s : json) :
  unparseable_entry data s → ∃ e, parse_entry data s = Raise e.
Proof.
  intros (sid & name & v & own & ts & e & Hsid & Hname & Hv & Hnull & Hown
          & Hts & Hts0 & Hfloat).
  exists e. unfold parse_entry.
  rewrite Hsid. cbn [mbind pyresult_bind]. rewrite Hname. cbn [mbind pyresult_bind].
  rewrite Hv. cbn [mbind pyresult_bind].
  apply is_null_false in Hnull, Hts0. rewrite Hnull.
  rewrite Hown. cbn [mbind pyresult_bind]. rewrite Hts. cbn [mbind pyresult_bind].
  rewrite Hts0. by rewrite Hfloat.
Qed.

Lemma parse_loop_raises (data s : json) (entries : list json) (e : exn) :
  s ∈ entries → parse_entry data s = Raise e →
  ∀ acc, ∃ e', parse_loop data entries acc = Raise e'.
Proof.
  intros Hin Hs. induction Hin as [s entries | s s' entries _ IH]; intros acc.
  - exists e. cbn [parse_loop]. by rewrite Hs.
  - cbn [parse_loop]. destruct (parse_entry data s') as [o | e'].
    + apply IH. done.
    + by exists e'.
Qed.

(** Claim C4, as the code has it.  When an entry of the payload is listed
    in the catalog, has a timestamp and a value that [float] refuses,
    [parse_sensors] raises and returns no reading.  A cycle that fetches
    such a payload, and does not skip it as a duplicate, raises with the
    world untouched, and the loop counts a failure and backs off. *)
Theorem C4_unparseable_value_raises (data s : json) (entries : list json) :
  sensor_entries data = Ok entries → s ∈ entries → unparseable_entry data s →
  (∃ e, parse_sensors data = Raise e) ∧
  ∀ cfg env ls,
    fetched env = Ok data →
    (∀ ts, py_get data "last_reading_at" JNull = Ok ts →
           is_duplicate ts (globals (loop_world ls)) = false) →
    (∃ e, poll_once cfg env (loop_world ls) = (Raise e, loop_world ls)) ∧
    consecutive_errors (run_iteration cfg env ls) = consecutive_errors ls + 1 ∧
    waits (run_iteration cfg env ls)
    = waits ls ++ [_backoff_sleep (consecutive_errors ls + 1)] ∧
    globals (loop_world (run_iteration cfg env ls)) = globals (loop_world ls) ∧
    store_client (loop_world (run_iteration cfg env ls))
    = store_client (loop_world ls).
Proof.
  intros Hentries Hin Hbad.
  assert (Hraise : ∃ e, parse_sensors data = Raise e).
  { apply parse_entry_unparseable in Hbad as (e & He).
    destruct (parse_loop_raises data s entries e Hin He []) as (e' & He').
    exists e'. unfold parse_sensors. by rewrite Hentries. }
  split; [done |]. intros cfg env ls Hfetch Hdup.
  destruct Hraise as (e & He).
  apply sensor_entries_dict in Hentries as (items & ->).
  assert (Hpoll : poll_once cfg env (loop_world ls) = (Raise e, loop_world ls)).
  { unfold poll_once. rewrite Hfetch, py_get_dict.
    rewrite (Hdup _ (py_get_dict _ _ _)). by rewrite He. }
  split; [by exists e |].
  unfold run_iteration. rewrite Hpoll. done.
Qed.

(** Scenario A: one reading, for sensor 55. *)
Lemma C3_witness :
  parse_sensors scenario_A
  = Ok [{| sensor_id := JInt 55; sensor_name := "temperature";
           value := float_21_4; timestamp := JStr T1 |}] ∧
  Forall reading_ok
    [{| sensor_id := JInt 55; sensor_name := "temperature";
        value := float_21_4; timestamp := JStr T1 |}].
Proof.
  assert (H : parse_sensors scenario_A
              = Ok [{| sensor_id := JInt 55; sensor_name := "temperature";
                       value := float_21_4; timestamp := JStr T1 |}])
    by (vm_compute; reflexivity).
  split; [exact H |].
  exact (proj1 (C3_parse_sensors_readings scenario_A _ H)).
Defined.

(** Claim C4 fails as stated: with the value [abc] for sensor 56 the
    reading of sensor 55 is not returned either; the error leaves the
    cycle and the loop counts a failure. *)
Lemma C4_counterexample :
  parse_sensors bad_value_doc = Raise ValueError ∧
  poll_once default_config (fetch_ok bad_value_doc) initial_world
  = (Raise ValueError, initial_world) ∧
  consecutive_errors (run default_config [fetch_ok bad_value_doc] initial_world)
  = 1.
Proof. repeat split; vm_compute; reflexivity. Qed.

(** The same payload, through the theorem. *)
Lemma C4_witness :
  (∃ e, parse_sensors bad_value_doc = Raise e) ∧
  consecutive_errors
    (run_iteration default_config (fetch_ok bad_value_doc)
       {| consecutive_errors := 0; waits := []; loop_world := initial_world |})
  = 1.
Proof.
  pose (bad := JDict [("id", JInt 56); ("value", JStr "abc")]%string).
  assert (Hentries : sensor_entries bad_value_doc
            = Ok [JDict [("id", JInt 55); ("value", JFloat float_21_4)]%string; bad])
    by reflexivity.
  assert (Hin : bad ∈ [JDict [("id", JInt 55); ("value", JFloat float_21_4)]%string; bad])
    by (apply list_elem_of_further, list_elem_of_here).
  assert (Hbad : unparseable_entry bad_value_doc bad).
  { exists (JInt 56), "humidity"%string, (JStr "abc"), JNull, (JStr T1), ValueError.
    repeat split; try (vm_compute; congruence). }
  destruct (C4_unparseable_value_raises _ _ _ Hentries Hin Hbad) as [H1 H2].
  split; [exact H1 |].
  refine (proj1 (proj2 (H2 default_config (fetch_ok bad_value_doc)
    {| consecutive_errors := 0; waits := []; loop_world := initial_world |}
    eq_refl _))).
  intros ts [= <-]. vm_compute. reflexivity.
Defined.

(** ** Totality on well-shaped payloads *)

Lemma SENSOR_NAME_MAP_get_hashable (sid : json) :
  hashable sid = true → ∃ o, SENSOR_NAME_MAP_get sid = Ok o.
Proof. destruct sid; try done; by eexists. Qed.

Lemma parse_entry_total (items : list (string * json)) (s : json) :
  entry_ok s = true → ∃ o, parse_entry (JDict items) s = Ok o.
Proof.
  destruct s as [| | | | | | fields]; try done.
  cbn [entry_ok]. intros [Hid Hval]%andb_prop.
  unfold parse_entry. rewrite !py_get_dict. cbn [mbind pyresult_bind].
  apply SENSOR_NAME_MAP_get_hashable in Hid as (o & ->).
  cbn [mbind pyresult_bind]. destruct o as [name |]; [| by eexists].
  destruct (dict_lookup "value" fields) as [v |] eqn:Hv; simpl;
    [| by eexists].
  destruct (is_null v) eqn:Hnull; [by eexists |].
  simpl in Hval. destruct (py_float v) as [x | e]; [| done].
  destruct (py_truthy _); simpl;
    match goal with |- context [is_null ?t] => destruct (is_null t) end;
    by eexists.
Qed.

Lemma parse_loop_total (items : list (string * json)) (entries : list json) :
  forallb entry_ok entries = true →
  ∀ acc, ∃ rs, parse_loop (JDict items) entries acc = Ok rs ∧
               (length rs ≤ length acc + length entries)%nat.
Proof.
  induction entries as [| s entries IH]; intros Hall acc.
  - exists acc. split; [done | cbn; lia].
  - cbn [forallb] in Hall. apply andb_prop in Hall as [Hs Hall].
    destruct (parse_entry_total items s Hs) as (o & Ho).
    cbn [parse_loop]. rewrite Ho. cbn [mbind pyresult_bind].
    destruct (IH Hall (match o with Some x => acc ++ [x] | None => acc end))
      as (rs & -> & Hlen).
    exists rs. split; [done |]. destruct o; rewrite ?length_app in Hlen; cbn in *; lia.
Qed.

(** Claim C8, as the code has it.  On a payload that is an object, whose
    [data] is absent or an object, whose [sensors] is absent or a list of
    objects with a hashable id and a value that is absent, null or
    accepted by [float], [parse_sensors] returns a list, with at most one
    reading per entry; it is empty when [data] or [sensors] is absent. *)
Theorem C8_parse_sensors_total_on_well_shaped (data : json) :
  payload_ok data = true →
  ∃ rs entries,
    sensor_entries data = Ok entries ∧
    parse_sensors data = Ok rs ∧
    (length rs ≤ length entries)%nat ∧
    (∀ items, data = JDict items →
       dict_lookup "data" items = None ∨
       (∃ inner, dict_lookup "data" items = Some (JDict inner) ∧
                 dict_lookup "sensors" inner = None) →
       rs = []).
Proof.
  destruct data as [| | | | | | items]; try done. cbn [payload_ok].
  unfold parse_sensors, sensor_entries. rewrite py_get_dict.
  destruct (dict_lookup "data" items) as [inner |] eqn:Hdata;
    cbn [from_option id mbind pyresult_bind].
  - destruct inner as [| | | | | | inner]; try done.
    rewrite py_get_dict.
    destruct (dict_lookup "sensors" inner) as [sensors |] eqn:Hsensors;
      cbn [from_option id mbind pyresult_bind].
    + destruct sensors as [| | | | | entries |]; try done. intros Hall.
      destruct (parse_loop_total items entries Hall []) as (rs & Hrs & Hlen).
      exists rs, entries. cbn [py_iter mbind pyresult_bind].
      repeat split; [done.. |].
      intros items' [= <-] [Hnone | (inner' & Hsome & Hnone)]; congruence.
    + intros _. exists [], []. by repeat split.
  - intros _. exists [], []. by repeat split.
Qed.

(** Scenario A is such a payload. *)
Lemma C8_witness :
  ∃ rs entries,
    sensor_entries scenario_A = Ok entries ∧
    parse_sensors scenario_A = Ok rs ∧
    (length rs ≤ length entries)%nat ∧
    (∀ items, scenario_A = JDict items →
       dict_lookup "data" items = None ∨
       (∃ inner, dict_lookup "data" items = Some (JDict inner) ∧
                 dict_lookup "sensors" inner = None) →
       rs = []).
Proof. apply C8_parse_sensors_total_on_well_shaped. vm_compute. reflexivity. Defined.

(** Claim C8 fails as stated: a payload that is a list, a null [data], a
    null [sensors] and an entry that is a number all raise. *)
Lemma C8_counterexample :
  parse_sensors (JList []) = Raise AttributeError ∧
  parse_sensors (JDict [("data", JNull)]%string) = Raise AttributeError ∧
  parse_sensors (JDict [("data", JDict [("sensors", JNull)])]%string)
  = Raise TypeError ∧
  parse_sensors (JDict [("data", JDict [("sensors", JList [JInt 5])])]%string)
  = Raise AttributeError.
Proof. repeat split. Qed.

(** ** The poll cycle *)

Lemma poll_once_outcome (cfg : config) (env : cycle_env) (w : world) :
  poll_outcome cfg env w (poll_once cfg env w).
Proof.
  unfold poll_once.
  destruct (fetched env) as [data | e] eqn:Hfetch;
    [| by constructor; left].
  destruct (py_get data "last_reading_at" JNull) as [ts | e] eqn:Hts;
    [| constructor; right; exists data; by split; [| left]].
  destruct (is_duplicate ts (globals w)) eqn:Hdup;
    [by eapply cycle_skipped |].
  destruct (parse_sensors data) as [[| r rs] | e] eqn:Hparse.
  - by eapply cycle_empty.
  - destruct (write_to_influxdb _ _ _ _ _) as [[count | e] cl] eqn:Hwrite.
    + by eapply cycle_written.
    + by eapply cycle_write_raised.
  - constructor. right. exists data. split; [done |]. right. by exists ts.
Qed.

Lemma encode_loop_length (readings : list reading) (device_id : string) :
  ∀ acc lines, encode_loop readings device_id acc = Ok lines →
  length lines = (length acc + length readings)%nat.
Proof.
  induction readings as [| r readings IH]; intros acc lines H.
  - injection H as <-. cbn. lia.
  - cbn [encode_loop] in H. apply bind_Ok in H as (ts & _ & H).
    apply IH in H. rewrite H, length_app. cbn. lia.
Qed.

(** What a write does to the client: nothing, or one call to
    [write_api], followed or not by one [write] of a non-empty record. *)
Lemma write_to_influxdb_client (cfg : config) (store : option exn)
    (cl cl' : client) (readings : list reading) (device_id : string)
    (res : pyresult Z) :
  write_to_influxdb cfg store cl readings device_id = (res, cl') →
  (readings = [] ∧ res = Ok 0 ∧ cl' = cl) ∨
  (readings ≠ [] ∧
   ((∃ e, res = Raise e ∧ write_calls cl' = write_calls cl) ∨
    (∃ c, write_calls cl' = write_calls cl ++ [c] ∧
          length (record c) = length readings ∧
          res = match store with
                | Some e => Raise e
                | None => Ok (Z.of_nat (length readings))
                end))).
Proof.
  destruct readings as [| r rs]; [intros [= <- <-]; by left |].
  intros H. right. split; [done |]. unfold write_to_influxdb in H.
  destruct (encode_loop (r :: rs) device_id []) as [lines | e] eqn:Hlines.
  - apply encode_loop_length in Hlines. cbn [length Nat.add] in Hlines.
    right. destruct store as [e |]; injection H as <- <-;
      eexists; cbn [write_calls record]; rewrite ?Hlines; done.
  - injection H as <- <-. left. by exists e.
Qed.

Lemma app_singleton_ne {A} (l : list A) (x : A) : l ≠ l ++ [x].
Proof.
  intros H. apply (f_equal length) in H. rewrite length_app in H. cbn in H. lia.
Qed.

(** Claim C1, as the code has it.  When the top-level timestamp of the
    fetched document is truthy and equal to the stored one, the cycle
    returns at once, whatever else the document holds: it only logs, and
    the globals and the store client are as before.  Hence when a cycle
    over a document with a truthy timestamp equal to itself returns after
    a write, the next cycle over the same document writes nothing: the
    two cycles issue that one write, and the poll count went up once. *)
Theorem C1_truthy_duplicate_skipped :
  (∀ cfg env w data ts,
     fetched env = Ok data →
     py_get data "last_reading_at" JNull = Ok ts →
     py_truthy ts = true →
     py_eq ts (_last_reading_at (globals w)) = true →
     ∃ w', poll_once cfg env w = (Ok (), w') ∧
           globals w' = globals w ∧
           store_client w' = store_client w ∧
           logged w' = logged w ++ [Debug_skipping_duplicate ts]) ∧
  (∀ cfg env1 env2 w w1 data ts c,
     fetched env1 = Ok data → fetched env2 = Ok data →
     py_get data "last_reading_at" JNull = Ok ts →
     py_truthy ts = true → py_eq ts ts = true →
     poll_once cfg env1 w = (Ok (), w1) →
     write_calls (store_client w1) = write_calls (store_client w) ++ [c] →
     ∃ w2, poll_once cfg env2 w1 = (Ok (), w2) ∧
           write_calls (store_client w2)
           = write_calls (store_client w) ++ [c] ∧
           _polls_total (globals w2) = _polls_total (globals w) + 1 ∧
           globals w2 = globals w1).
Proof.
  assert (Hskip : ∀ cfg env w data ts,
     fetched env = Ok data →
     py_get data "last_reading_at" JNull = Ok ts →
     py_truthy ts = true →
     py_eq ts (_last_reading_at (globals w)) = true →
     poll_once cfg env w = (Ok (), log w (Debug_skipping_duplicate ts))).
  { intros cfg env w data ts Hfetch Hts Htruthy Heq.
    unfold poll_once. rewrite Hfetch, Hts. unfold is_duplicate.
    by rewrite Htruthy, Heq. }
  split.
  - intros cfg env w data ts Hfetch Hts Htruthy Heq.
    eexists. split; [by eapply Hskip |]. done.
  - intros cfg env1 env2 w w1 data ts c Hf1 Hf2 Hts Htruthy Hself H1 Hc.
    pose proof (poll_once_outcome cfg env1 w) as Hout. rewrite H1 in Hout.
    inversion Hout as
      [ | data' ts' Hf Ht Hd | data' ts' Hf Ht Hd Hp
        | | data' ts' r rs count cl Hf Ht Hd Hp Hw ]; subst.
    + cbn in Hc. by apply app_singleton_ne in Hc.
    + cbn in Hc. by apply app_singleton_ne in Hc.
    + rewrite Hf1 in Hf. injection Hf as <-. rewrite Hts in Ht.
      injection Ht as <-.
      eexists. split; [eapply Hskip; by eauto |]. done.
Qed.

(** Scenario B: the same document twice. *)
Lemma C1_witness :
  (∃ w', poll_once default_config (fetch_ok scenario_A) (world_after (JStr T1))
         = (Ok (), w') ∧
         globals w' = globals (world_after (JStr T1)) ∧
         store_client w' = store_client (world_after (JStr T1)) ∧
         logged w' = logged (world_after (JStr T1))
                     ++ [Debug_skipping_duplicate (JStr T1)]) ∧
  (∃ w2 c, poll_once default_config (fetch_ok scenario_A)
             (snd (poll_once default_config (fetch_ok scenario_A) initial_world))
           = (Ok (), w2) ∧
           write_calls (store_client w2) = [c] ∧
           _polls_total (globals w2) = 1).
Proof.
  destruct C1_truthy_duplicate_skipped as [Hskip Htwice].
  split.
  - apply (Hskip default_config (fetch_ok scenario_A) (world_after (JStr T1))
             scenario_A (JStr T1)); reflexivity.
  - pose (w1 := snd (poll_once default_config (fetch_ok scenario_A) initial_world)).
    pose (c := {| bucket := "sck_data"; org := "sck";
                  record := [{| point_device_id := "19396";
                                point_sensor_name := "temperature";
                                point_value := float_21_4;
                                point_ts_ns := 1770224447000000000 |}] |}).
    destruct (Htwice default_config (fetch_ok scenario_A) (fetch_ok scenario_A)
                initial_world w1 scenario_A (JStr T1) c)
      as (w2 & H2 & Hcalls & Hpolls & _);
      try (vm_compute; reflexivity).
    exists w2, c. repeat split; [exact H2 | exact Hcalls | exact Hpolls].
Defined.

(** Claim C1 fails as stated: the empty string is a timestamp that is not
    null and equals the stored one, and the cycle writes all the same;
    two cycles over that document write twice. *)
Lemma C1_counterexample :
  py_get empty_timestamp_doc "last_reading_at" JNull = Ok (JStr EmptyString) ∧
  py_eq (JStr EmptyString)
    (_last_reading_at (globals (world_after (JStr EmptyString)))) = true ∧
  (let w' := snd (poll_once default_config (fetch_ok empty_timestamp_doc)
                    (world_after (JStr EmptyString))) in
   length (write_calls (store_client w')) = 1%nat ∧
   _polls_total (globals w') = 2) ∧
  (let w2 := loop_world (run default_config
               [fetch_ok empty_timestamp_doc; fetch_ok empty_timestamp_doc]
               initial_world) in
   length (write_calls (store_client w2)) = 2%nat ∧
   _polls_total (globals w2) = 2).
Proof. repeat split; vm_compute; reflexivity. Qed.

(** ** The stored reading timestamp *)

Lemma run_iteration_globals (cfg : config) (env : cycle_env) (ls : loop_state) :
  globals (loop_world (run_iteration cfg env ls))
  = globals (snd (poll_once cfg env (loop_world ls))).
Proof.
  unfold run_iteration. by destruct (poll_once cfg env (loop_world ls)) as [[[] | e] w].
Qed.

Lemma run_snoc (cfg : config) (schedule : list cycle_env) (env : cycle_env)
    (w : world) :
  run cfg (schedule ++ [env]) w = run_iteration cfg env (run cfg schedule w).
Proof. unfold run. by rewrite fold_left_app. Qed.

(** One cycle either keeps the globals or stores the document's top-level
    timestamp, whatever it is, after a write. *)
Lemma poll_once_last_reading_at (cfg : config) (env : cycle_env) (w : world) :
  globals (snd (poll_once cfg env w)) = globals w ∨
  ∃ data c,
    fetched env = Ok data ∧
    py_get data "last_reading_at" JNull
    = Ok (_last_reading_at (globals (snd (poll_once cfg env w)))) ∧
    fst (poll_once cfg env w) = Ok () ∧
    _polls_total (globals (snd (poll_once cfg env w)))
    = _polls_total (globals w) + 1 ∧
    write_calls (store_client (snd (poll_once cfg env w)))
    = write_calls (store_client w) ++ [c] ∧
    record c ≠ [].
Proof.
  destruct (poll_once_outcome cfg env w)
    as [ | | | | data ts r rs count cl Hf Ht Hd Hp Hw ]; try by left.
  right. apply write_to_influxdb_client in Hw as [[? _] | [_ [(e & ? & _) | (c & Hc & Hlen & _)]]];
    try done.
  exists data, c. repeat split; try done.
  intros Hnil. by rewrite Hnil in Hlen.
Qed.

(** Claim C6, as the code has it.  A cycle either leaves the globals as
    they were, or returns after one write of a non-empty record, with the
    poll count one higher and the stored timestamp equal to the top-level
    timestamp of the fetched document, [None] when it has none.  Over any
    run of the loop the stored timestamp is the initial one or the
    top-level timestamp of one of the fetched documents. *)
Theorem C6_last_reading_at_follows_document :
  (∀ cfg env w,
     globals (snd (poll_once cfg env w)) = globals w ∨
     ∃ data c,
       fetched env = Ok data ∧
       py_get data "last_reading_at" JNull
       = Ok (_last_reading_at (globals (snd (poll_once cfg env w)))) ∧
       fst (poll_once cfg env w) = Ok () ∧
       _polls_total (globals (snd (poll_once cfg env w)))
       = _polls_total (globals w) + 1 ∧
       write_calls (store_client (snd (poll_once cfg env w)))
       = write_calls (store_client w) ++ [c] ∧
       record c ≠ []) ∧
  (∀ cfg schedule w,
     let last := _last_reading_at (globals (loop_world (run cfg schedule w))) in
     last = _last_reading_at (globals w) ∨
     ∃ env data, env ∈ schedule ∧ fetched env = Ok data ∧
                 py_get data "last_reading_at" JNull = Ok last).
Proof.
  split; [apply poll_once_last_reading_at |].
  intros cfg schedule w.
  induction schedule as [| env schedule IH] using rev_ind; [by left |].
  cbn zeta in *. rewrite run_snoc, run_iteration_globals.
  destruct (poll_once_last_reading_at cfg env (loop_world (run cfg schedule w)))
    as [-> | (data & c & Hf & Ht & _)].
  - destruct IH as [IH | (env' & data & Hin & Hf & Ht)]; [by left |].
    right. exists env', data. split; [| done]. apply elem_of_app. by left.
  - right. exists env, data. split; [| done].
    apply elem_of_app. right. apply list_elem_of_here.
Qed.

(** Claim C6 fails as stated: a document stamped a minute before the
    stored timestamp replaces it, and a document without a top-level
    timestamp replaces it by [None]. *)
Lemma C6_counterexample :
  (let w' := snd (poll_once default_config (fetch_ok earlier_doc)
                    (world_after (JStr T1))) in
   _last_reading_at (globals (world_after (JStr T1))) = JStr T1 ∧
   _last_reading_at (globals w') = JStr "2026-02-04T16:59:47Z" ∧
   _iso_to_ns (JStr "2026-02-04T16:59:47Z") = Ok 1770224387000000000 ∧
   _iso_to_ns (JStr T1) = Ok 1770224447000000000) ∧
  (let w' := snd (poll_once default_config (fetch_ok no_timestamp_doc)
                    (world_after (JStr T1))) in
   _last_reading_at (globals w') = JNull).
Proof. repeat split; vm_compute; reflexivity. Qed.

(** ** Writing *)

(** Claim C7.  On no readings [write_to_influxdb] returns 0 and the
    client has received nothing, neither [write_api] nor [write]; no
    readings encode to no lines; and no call of [write] ever carries an
    empty record. *)
Theorem C7_empty_batch_not_written :
  (∀ cfg store cl device_id,
     write_to_influxdb cfg store cl [] device_id = (Ok 0, cl)) ∧
  (∀ device_id, encode_loop [] device_id [] = Ok []) ∧
  (∀ cfg store cl readings device_id,
     Forall (λ c, record c ≠ []) (write_calls cl) →
     Forall (λ c, record c ≠ [])
       (write_calls (snd (write_to_influxdb cfg store cl readings device_id)))).
Proof.
  split; [done |]. split; [done |].
  intros cfg store cl readings device_id Hall.
  destruct (write_to_influxdb cfg store cl readings device_id) as [res cl'] eqn:Hw.
  cbn [snd].
  apply write_to_influxdb_client in Hw
    as [(_ & _ & ->) | [Hne [(e & _ & ->) | (c & -> & Hlen & _)]]]; try done.
  apply Forall_app. split; [done |]. constructor; [| done].
  intros Hnil. rewrite Hnil in Hlen. by destruct readings.
Qed.

(** The empty batch on a fresh client. *)
Lemma C7_witness :
  Forall (λ c, record c ≠ [])
    (write_calls (snd (write_to_influxdb default_config None empty_client []
                         "19396"))).
Proof.
  apply (proj2 (proj2 C7_empty_batch_not_written)). constructor.
Defined.

(** ** Backoff *)

(** Claim C2.  The wait after [n] failures is [min(2^n, 300)] for [n]
    from 1 to 10, that is 2, 4, ..., 256, 300, 300; it never decreases as
    [n] grows and never exceeds 300. *)
Theorem C2_backoff_wait :
  (∀ n, 1 ≤ n ≤ 10 → _backoff_sleep n = Z.min (2 ^ n) 300) ∧
  map _backoff_sleep [1; 2; 3; 4; 5; 6; 7; 8; 9; 10]
  = [2; 4; 8; 16; 32; 64; 128; 256; 300; 300] ∧
  (∀ n m, n ≤ m → _backoff_sleep n ≤ _backoff_sleep m) ∧
  (∀ n, _backoff_sleep n ≤ 300).
Proof.
  split; [done |]. split; [done |]. split.
  - intros n m Hnm. unfold _backoff_sleep.
    assert (2 ^ n ≤ 2 ^ m); [| lia].
    destruct (Z.lt_ge_cases n 0) as [Hneg | Hpos].
    + rewrite (Z.pow_neg_r 2 n Hneg). apply Z.pow_nonneg. lia.
    + apply Z.pow_le_mono_r; lia.
  - intros n. unfold _backoff_sleep. lia.
Qed.

(** The ninth attempt, and the third against it. *)
Lemma C2_witness :
  _backoff_sleep 9 = Z.min (2 ^ 9) 300 ∧ _backoff_sleep 3 ≤ _backoff_sleep 9.
Proof.
  destruct C2_backoff_wait as (Heq & _ & Hmono & _).
  split; [apply Heq; lia | apply Hmono; lia].
Defined.

(** ** The loop counter *)

Lemma run_iteration_fetch_fails (cfg : config) (env : cycle_env)
    (ls : loop_state) (e : exn) :
  fetched env = Raise e →
  run_iteration cfg env ls
  = {| consecutive_errors := consecutive_errors ls + 1;
       waits := waits ls ++ [_backoff_sleep (consecutive_errors ls + 1)];
       loop_world :=
         log (loop_world ls)
           (if is_request_exception e
            then Error_api_request_failed (consecutive_errors ls + 1)
                   (_backoff_sleep (consecutive_errors ls + 1)) e
            else Exception_unexpected_error (consecutive_errors ls + 1)
                   (_backoff_sleep (consecutive_errors ls + 1)) e) |}.
Proof. intros H. unfold run_iteration, poll_once. by rewrite H. Qed.

(** Claim C9.  A turn of the loop whose cycle returns sets the counter to
    0 and waits the poll interval; a turn whose cycle raises, whatever
    the exception, adds 1 and waits [_backoff_sleep] of the new count.
    Three fetches that raise, from the start, wait 2, 4 and 8 seconds and
    leave the counter at 3; a cycle that then returns sets it to 0. *)
Theorem C9_consecutive_errors :
  (∀ cfg env ls,
     fst (poll_once cfg env (loop_world ls)) = Ok () →
     consecutive_errors (run_iteration cfg env ls) = 0 ∧
     waits (run_iteration cfg env ls)
     = waits ls ++ [POLL_INTERVAL_SECONDS cfg]) ∧
  (∀ cfg env ls e,
     fst (poll_once cfg env (loop_world ls)) = Raise e →
     consecutive_errors (run_iteration cfg env ls) = consecutive_errors ls + 1 ∧
     waits (run_iteration cfg env ls)
     = waits ls ++ [_backoff_sleep (consecutive_errors ls + 1)]) ∧
  (∀ cfg env1 env2 env3 e1 e2 e3 w,
     fetched env1 = Raise e1 → fetched env2 = Raise e2 →
     fetched env3 = Raise e3 →
     let ls := run cfg [env1; env2; env3] w in
     consecutive_errors ls = 3 ∧ waits ls = [2; 4; 8] ∧
     ∀ env4, fst (poll_once cfg env4 (loop_world ls)) = Ok () →
             consecutive_errors (run cfg [env1; env2; env3; env4] w) = 0).
Proof.
  split; [| split].
  - intros cfg env ls H. unfold run_iteration.
    by destruct (poll_once cfg env (loop_world ls)) as [[[] | e] w]; simplify_eq/=.
  - intros cfg env ls e H. unfold run_iteration.
    by destruct (poll_once cfg env (loop_world ls)) as [[[] | e'] w]; simplify_eq/=.
  - intros cfg env1 env2 env3 e1 e2 e3 w H1 H2 H3.
    cbn zeta. unfold run. cbn [fold_left].
    rewrite (run_iteration_fetch_fails _ _ _ _ H1).
    rewrite (run_iteration_fetch_fails _ _ _ _ H2).
    rewrite (run_iteration_fetch_fails _ _ _ _ H3).
    cbn [consecutive_errors waits loop_world app].
    split; [done |]. split; [done |].
    intros env4 H4. unfold run_iteration. cbn [loop_world].
    by destruct (poll_once cfg env4 _) as [[[] | e] w4]; simplify_eq/=.
Qed.

(** Scenario C, with two network errors and one other error. *)
Lemma C9_witness :
  (let ls := run default_config
               [fetch_fails (RequestException "timeout");
                fetch_fails (RequestException "timeout");
                fetch_fails (OtherException "KeyError")] initial_world in
   consecutive_errors ls = 3 ∧ waits ls = [2; 4; 8]) ∧
  consecutive_errors
    (run default_config
       [fetch_fails (RequestException "timeout");
        fetch_fails (RequestException "timeout");
        fetch_fails (OtherException "KeyError");
        fetch_ok scenario_A] initial_world) = 0.
Proof.
  destruct C9_consecutive_errors as (_ & _ & H).
  destruct (H default_config
              (fetch_fails (RequestException "timeout"))
              (fetch_fails (RequestException "timeout"))
              (fetch_fails (OtherException "KeyError"))
              _ _ _ initial_world eq_refl eq_refl eq_refl) as (Hn & Hw & Hreset).
  split; [by split |].
  apply (Hreset (fetch_ok scenario_A)). vm_compute. reflexivity.
Defined.

(** ** A failed cycle *)

(** The outcome of a write does not depend on the calls already made. *)
Lemma write_to_influxdb_result (cfg : config) (store : option exn)
    (cl1 cl2 : client) (readings : list reading) (device_id : string) :
  fst (write_to_influxdb cfg store cl1 readings device_id)
  = fst (write_to_influxdb cfg store cl2 readings device_id).
Proof.
  unfold write_to_influxdb. destruct readings; [done |].
  destruct (encode_loop _ _ _); [| done]. by destruct store.
Qed.

(** A cycle reads the globals of the world only. *)
Lemma poll_once_reads_globals (cfg : config) (env : cycle_env) (w1 w2 : world) :
  globals w1 = globals w2 →
  fst (poll_once cfg env w1) = fst (poll_once cfg env w2) ∧
  globals (snd (poll_once cfg env w1)) = globals (snd (poll_once cfg env w2)).
Proof.
  intros Hg. unfold poll_once.
  destruct (fetched env) as [data |]; [| done].
  destruct (py_get data "last_reading_at" JNull) as [ts |]; [| done].
  rewrite Hg. destruct (is_duplicate ts (globals w2)); [done |].
  destruct (parse_sensors data) as [[| r rs] |]; [done | | done].
  pose proof (write_to_influxdb_result cfg (store env) (store_client w1)
                (store_client w2) (r :: rs) (SCK_DEVICE_ID cfg)) as Hres.
  destruct (write_to_influxdb cfg (store env) (store_client w1) _ _)
    as [res1 cl1].
  destruct (write_to_influxdb cfg (store env) (store_client w2) _ _)
    as [res2 cl2].
  cbn [fst] in Hres. subst res2. destruct res1; cbn; by rewrite ?Hg.
Qed.

(** Claim C10.  A cycle that raises leaves the three globals as they
    were, so the health body is the same and any next cycle has the
    result and the globals it would have had without it.  In particular
    a cycle whose store refuses the write raises that exception and
    leaves the globals as they were. *)
Theorem C10_failed_cycle_keeps_state :
  (∀ cfg env w e,
     fst (poll_once cfg env w) = Raise e →
     let w' := snd (poll_once cfg env w) in
     globals w' = globals w ∧
     health_body (globals w') = health_body (globals w) ∧
     ∀ env',
       fst (poll_once cfg env' w') = fst (poll_once cfg env' w) ∧
       globals (snd (poll_once cfg env' w'))
       = globals (snd (poll_once cfg env' w))) ∧
  (∀ cfg env w data ts r rs lines e,
     fetched env = Ok data →
     py_get data "last_reading_at" JNull = Ok ts →
     is_duplicate ts (globals w) = false →
     parse_sensors data = Ok (r :: rs) →
     encode_loop (r :: rs) (SCK_DEVICE_ID cfg) [] = Ok lines →
     store env = Some e →
     fst (poll_once cfg env w) = Raise e ∧
     globals (snd (poll_once cfg env w)) = globals w).
Proof.
  assert (Hkeep : ∀ cfg env w e,
            fst (poll_once cfg env w) = Raise e →
            globals (snd (poll_once cfg env w)) = globals w).
  { intros cfg env w e H.
    destruct (poll_once_outcome cfg env w); try done. }
  split.
  - intros cfg env w e H. cbn zeta.
    pose proof (Hkeep _ _ _ _ H) as Hg.
    split; [done |]. split; [by rewrite Hg |].
    intros env'. by apply poll_once_reads_globals.
  - intros cfg env w data ts r rs lines e Hf Ht Hd Hp Hl Hs.
    assert (H : fst (poll_once cfg env w) = Raise e).
    { unfold poll_once. rewrite Hf, Ht, Hd, Hp.
      unfold write_to_influxdb. by rewrite Hl, Hs. }
    split; [done |]. by eapply Hkeep.
Qed.

(** Scenario A against a store that refuses the write. *)
Lemma C10_witness :
  (fst (poll_once default_config (store_down scenario_A) initial_world)
   = Raise (OtherException "influxdb write failed") ∧
   globals (snd (poll_once default_config (store_down scenario_A) initial_world))
   = globals initial_world) ∧
  health_body
    (globals (snd (poll_once default_config (store_down scenario_A)
                     initial_world)))
  = health_body (globals initial_world).
Proof.
  destruct C10_failed_cycle_keeps_state as [Hkeep Hstore].
  pose (r := {| sensor_id := JInt 55; sensor_name := "temperature";
                value := float_21_4; timestamp := JStr T1 |}).
  pose (p := {| point_device_id := "19396";
                point_sensor_name := "temperature";
                point_value := float_21_4;
                point_ts_ns := 1770224447000000000 |}).
  assert (H : fst (poll_once default_config (store_down scenario_A)
                     initial_world)
              = Raise (OtherException "influxdb write failed") ∧
              globals (snd (poll_once default_config (store_down scenario_A)
                              initial_world))
              = globals initial_world).
  { apply (Hstore default_config (store_down scenario_A) initial_world
             scenario_A (JStr T1) r [] [p]
             (OtherException "influxdb write failed"));
      vm_compute; reflexivity. }
  split; [exact H |].
  exact (proj1 (proj2 (Hkeep default_config (store_down scenario_A)
                         initial_world _ (proj1 H)))).
Defined.

(** * Further properties *)

(** ** The encoder *)

Lemma encode_loop_points (device_id : string) (readings : list reading) :
  ∀ acc lines, encode_loop readings device_id acc = Ok lines →
  ∃ new, lines = acc ++ new ∧ Forall2 (point_of device_id) readings new.
Proof.
  induction readings as [| r readings IH]; intros acc lines H.
  - injection H as <-. exists []. by rewrite app_nil_r.
  - cbn [encode_loop] in H. apply bind_Ok in H as (ts & Hts & H).
    apply IH in H as (new & -> & Hall).
    eexists (_ :: new). rewrite <- app_assoc. split; [done |].
    by constructor.
Qed.

Lemma encode_loop_raises (device_id : string) (pre post : list reading)
    (r : reading) (e : exn) :
  Forall (λ x, is_ok (_iso_to_ns (timestamp x)) = true) pre →
  _iso_to_ns (timestamp r) = Raise e →
  ∀ acc, encode_loop (pre ++ r :: post) device_id acc = Raise e.
Proof.
  intros Hpre Hr. induction Hpre as [| x pre Hx _ IH]; intros acc.
  - cbn [app encode_loop]. by rewrite Hr.
  - cbn [app encode_loop]. destruct (_iso_to_ns (timestamp x)); [| done].
    apply IH.
Qed.

(** Extra X1.  A write of readings that returns has obtained the write
    API once and issued one call of [write], for the configured bucket
    and organisation, whose record holds one line per reading in their
    order: the device id, the reading's name and value, and its timestamp
    in nanoseconds; the count returned is the number of readings. *)
Theorem write_success_is_one_call (cfg : config) (store : option exn)
    (cl cl' : client) (readings : list reading) (device_id : string) (n : Z) :
  readings ≠ [] →
  write_to_influxdb cfg store cl readings device_id = (Ok n, cl') →
  store = None ∧
  n = Z.of_nat (length readings) ∧
  write_api_calls cl' = S (write_api_calls cl) ∧
  ∃ c, write_calls cl' = write_calls cl ++ [c] ∧
       bucket c = INFLUXDB_BUCKET cfg ∧ org c = INFLUXDB_ORG cfg ∧
       Forall2 (point_of device_id) readings (record c).
Proof.
  intros Hne H. unfold write_to_influxdb in H.
  destruct readings as [| r rs]; [done |].
  destruct (encode_loop (r :: rs) device_id []) as [lines |] eqn:Hlines;
    [| done].
  pose proof (encode_loop_length _ _ _ _ Hlines) as Hlen.
  apply encode_loop_points in Hlines as (new & -> & Hall).
  cbn [app] in *. destruct store; [done |]. injection H as <- <-.
  split; [done |]. split; [by rewrite Hlen |]. split; [done |].
  eexists. split; [done |]. by repeat split.
Qed.

(** Extra X2.  When the timestamp of a reading does not convert, and
    those before it do, [write_to_influxdb] raises that error after it has
    obtained the write API and before any call of [write]: no part of the
    batch is written. *)
Theorem write_bad_timestamp_writes_nothing (cfg : config) (store : option exn)
    (cl : client) (pre post : list reading) (r : reading) (device_id : string)
    (e : exn) :
  Forall (λ x, is_ok (_iso_to_ns (timestamp x)) = true) pre →
  _iso_to_ns (timestamp r) = Raise e →
  ∃ cl', write_to_influxdb cfg store cl (pre ++ r :: post) device_id
         = (Raise e, cl') ∧
         write_calls cl' = write_calls cl ∧
         write_api_calls cl' = S (write_api_calls cl).
Proof.
  intros Hpre Hr. unfold write_to_influxdb.
  rewrite (encode_loop_raises device_id pre post r e Hpre Hr).
  destruct (pre ++ r :: post) eqn:Hl; [by destruct pre |].
  by eexists.
Qed.

(** ** Truth value and equality *)

Lemma pow2_pos (k : Z) : 0 ≤ k → 0 < 2 ^ k.
Proof. intros. apply Z.pow_pos_nonneg; lia. Qed.

Lemma float_eq_int_zero (x : pyfloat) (z : Z) :
  float_eq_int x z = true → float_is_zero x = (z =? 0).
Proof.
  destruct x as [| | m e]; try done. cbn [float_eq_int float_is_zero].
  destruct (Z.leb_spec 0 e) as [He | He]; intros H%Z.eqb_eq.
  - pose proof (pow2_pos e He).
    destruct (Z.eqb_spec m 0), (Z.eqb_spec z 0); try done; nia.
  - pose proof (pow2_pos (- e)). 
    destruct (Z.eqb_spec m 0), (Z.eqb_spec z 0); try done; nia.
Qed.

Lemma float_eq_zero (x y : pyfloat) :
  float_eq x y = true → float_is_zero x = float_is_zero y.
Proof.
  destruct x as [| | m1 e1], y as [| | m2 e2]; try done.
  cbn [float_eq float_is_zero]. intros H%Z.eqb_eq.
  pose proof (pow2_pos (e1 - Z.min e1 e2)).
  pose proof (pow2_pos (e2 - Z.min e1 e2)).
  destruct (Z.eqb_spec m1 0), (Z.eqb_spec m2 0); try done; nia.
Qed.

(** Equal values have the same truth value. *)
Lemma py_eq_truthy (a b : json) :
  py_eq a b = true → py_truthy a = py_truthy b.
Proof.
  destruct a as [| x | x | x | x | la | da], b as [| y | y | y | y | lb | db];
    try done; cbn [py_eq py_truthy].
  - by intros ->%eqb_prop.
  - destruct x; intros H%Z.eqb_eq; subst; done.
  - intros H%float_eq_int_zero. rewrite H. by destruct x.
  - destruct y; intros H%Z.eqb_eq; subst; done.
  - intros H%Z.eqb_eq. by subst.
  - intros H%float_eq_int_zero. by rewrite H.
  - intros H%float_eq_int_zero. rewrite H. by destruct y.
  - intros H%float_eq_int_zero. by rewrite H.
  - intros H%float_eq_zero. by rewrite H.
  - intros H%String.eqb_eq. by subst.
  - by destruct la, lb.
  - destruct da, db; try done.
Qed.

(** Extra X4.  A document is taken for a duplicate only when its
    timestamp and the stored one are both truthy: never while nothing is
    stored, and never when the document has no timestamp. *)
Theorem skip_needs_stored_timestamp :
  (∀ ts g, is_duplicate ts g = true →
     py_truthy ts = true ∧ py_truthy (_last_reading_at g) = true ∧
     _last_reading_at g ≠ JNull) ∧
  (∀ ts g, _last_reading_at g = JNull → is_duplicate ts g = false) ∧
  (∀ g, is_duplicate JNull g = false).
Proof.
  assert (H : ∀ ts g, is_duplicate ts g = true →
     py_truthy ts = true ∧ py_truthy (_last_reading_at g) = true ∧
     _last_reading_at g ≠ JNull).
  { intros ts g [Ht Heq]%andb_prop. apply py_eq_truthy in Heq.
    rewrite Ht in Heq. repeat split; try done.
    intros Hnull. by rewrite Hnull in Heq. }
  split; [done |]. split; [| done].
  intros ts g Hnull. destruct (is_duplicate ts g) eqn:Hd; [| done].
  by apply H in Hd as (_ & _ & ?).
Qed.

(** ** Backoff, further *)

Lemma pow2_le_mono (n m : Z) : 0 ≤ n ≤ m → 2 ^ n ≤ 2 ^ m.
Proof. intros. apply Z.pow_le_mono_r; lia. Qed.

Lemma backoff_bounds (n : Z) : 1 ≤ n → 2 ≤ _backoff_sleep n ≤ 300.
Proof.
  intros Hn. unfold _backoff_sleep.
  pose proof (pow2_le_mono 1 n ltac:(lia)) as H1.
  change (2 ^ 1) with 2 in H1. lia.
Qed.

(** Extra X8.  The wait is [2^n] up to the eighth failure in a row, each
    twice the one before, and 300 from the ninth on; after a failure it
    is never under 2 seconds. *)
Theorem backoff_doubles_then_saturates :
  (∀ n, 0 ≤ n ≤ 8 → _backoff_sleep n = 2 ^ n) ∧
  (∀ n, 0 ≤ n < 8 → _backoff_sleep (n + 1) = 2 * _backoff_sleep n) ∧
  (∀ n, 9 ≤ n → _backoff_sleep n = 300) ∧
  (∀ n, 1 ≤ n → 2 ≤ _backoff_sleep n ≤ 300).
Proof.
  unfold _backoff_sleep. repeat split.
  - intros n Hn. pose proof (pow2_le_mono n 8 ltac:(lia)) as H.
    change (2 ^ 8) with 256 in H. lia.
  - intros n Hn. pose proof (pow2_le_mono (n + 1) 8 ltac:(lia)) as H.
    change (2 ^ 8) with 256 in H.
    rewrite Z.pow_add_r in * by lia. change (2 ^ 1) with 2 in *. lia.
  - intros n Hn. pose proof (pow2_le_mono 9 n ltac:(lia)) as H.
    change (2 ^ 9) with 512 in H. lia.
  - pose proof (pow2_le_mono 1 n ltac:(lia)) as H1.
    change (2 ^ 1) with 2 in H1. lia.
  - lia.
Qed.

(** ** The loop, over any schedule *)

Lemma run_run_from (cfg : config) (schedule : list cycle_env) (w : world) :
  run cfg schedule w
  = run_from cfg schedule
      {| consecutive_errors := 0; waits := []; loop_world := w |}.
Proof. done. Qed.

Lemma run_from_app (cfg : config) (s1 s2 : list cycle_env) (ls : loop_state) :
  run_from cfg (s1 ++ s2) ls = run_from cfg s2 (run_from cfg s1 ls).
Proof. unfold run_from. by rewrite fold_left_app. Qed.

(** One turn: what it does to the counter, the waits and the world. *)
Lemma run_iteration_cases (cfg : config) (env : cycle_env) (ls : loop_state) :
  (fst (poll_once cfg env (loop_world ls)) = Ok () ∧
   consecutive_errors (run_iteration cfg env ls) = 0 ∧
   waits (run_iteration cfg env ls) = waits ls ++ [POLL_INTERVAL_SECONDS cfg] ∧
   loop_world (run_iteration cfg env ls)
   = snd (poll_once cfg env (loop_world ls))) ∨
  (∃ e, fst (poll_once cfg env (loop_world ls)) = Raise e ∧
   consecutive_errors (run_iteration cfg env ls) = consecutive_errors ls + 1 ∧
   waits (run_iteration cfg env ls)
   = waits ls ++ [_backoff_sleep (consecutive_errors ls + 1)] ∧
   loop_world (run_iteration cfg env ls)
   = log (snd (poll_once cfg env (loop_world ls)))
       (if is_request_exception e
        then Error_api_request_failed (consecutive_errors ls + 1)
               (_backoff_sleep (consecutive_errors ls + 1)) e
        else Exception_unexpected_error (consecutive_errors ls + 1)
               (_backoff_sleep (consecutive_errors ls + 1)) e)).
Proof.
  unfold run_iteration.
  destruct (poll_once cfg env (loop_world ls)) as [[[] | e] w]; cbn.
  - by left.
  - right. by exists e.
Qed.

(** Extra X9.  Over any run the loop waits exactly once per turn, either
    the poll interval or a backoff of 2 to 300 seconds, and the failure
    counter stays between 0 and the number of turns. *)
Theorem loop_waits_once_per_turn (cfg : config) (schedule : list cycle_env)
    (w : world) :
  let ls := run cfg schedule w in
  length (waits ls) = length schedule ∧
  Forall (λ t, t = POLL_INTERVAL_SECONDS cfg ∨ 2 ≤ t ≤ 300) (waits ls) ∧
  0 ≤ consecutive_errors ls ≤ Z.of_nat (length schedule).
Proof.
  cbn zeta. induction schedule as [| env schedule IH] using rev_ind.
  - split; [done |]. split; [constructor | done].
  - rewrite run_snoc, length_app. cbn [length].
    destruct IH as (Hlen & Hall & Hce).
    destruct (run_iteration_cases cfg env (run cfg schedule w))
      as [(_ & -> & -> & _) | (e & _ & -> & -> & _)];
      rewrite length_app, Hlen; cbn [length].
    + split; [done |]. split; [| lia].
      apply Forall_app. split; [done |]. constructor; [by left | done].
    + split; [done |]. split; [| lia].
      apply Forall_app. split; [done |]. constructor; [| done]. right.
      apply backoff_bounds. lia.
Qed.

Lemma run_from_cons (cfg : config) (env : cycle_env) (schedule : list cycle_env)
    (ls : loop_state) :
  run_from cfg (env :: schedule) ls
  = run_from cfg schedule (run_iteration cfg env ls).
Proof. done. Qed.

(** A streak of failed fetches, from any state of the loop. *)
Lemma run_from_fetch_failures (cfg : config) (fails : list cycle_env) :
  Forall (λ env, is_ok (fetched env) = false) fails →
  ∀ ls,
    let ls' := run_from cfg fails ls in
    consecutive_errors ls' = consecutive_errors ls + Z.of_nat (length fails) ∧
    waits ls'
    = waits ls ++ map (λ i, _backoff_sleep (consecutive_errors ls + i))
                      (seqZ 1 (Z.of_nat (length fails))) ∧
    globals (loop_world ls') = globals (loop_world ls) ∧
    store_client (loop_world ls') = store_client (loop_world ls).
Proof.
  induction 1 as [| env fails Henv _ IH]; intros ls; cbn zeta.
  - cbn. rewrite app_nil_r. repeat split; lia.
  - rewrite run_from_cons.
    destruct (fetched env) as [| e] eqn:Hf; [done |].
    specialize (IH (run_iteration cfg env ls)). cbn zeta in IH.
    destruct IH as (Hce & Hw & Hg & Hc).
    rewrite Hce, Hw, Hg, Hc.
    rewrite (run_iteration_fetch_fails cfg env ls e Hf).
    cbn [consecutive_errors waits loop_world log globals store_client length].
    split; [lia |]. split; [| done].
    rewrite <- app_assoc. f_equal. cbn [app].
    replace (Z.of_nat (S (length fails))) with (Z.succ (Z.of_nat (length fails)))
      by lia.
    rewrite (seqZ_cons 1 (Z.succ _)) by lia. cbn [map]. f_equal.
    rewrite Z.pred_succ.
    replace (Z.succ 1) with (1 + 1) by lia.
    rewrite <- (fmap_add_seqZ 1 1). rewrite <- list_fmap_compose.
    apply list_fmap_ext. intros _ i _. cbn. f_equal. lia.
Qed.

(** Extra X10.  After any cycles, [k] fetches that fail in a row add [k]
    to the failure counter and wait, in turn, the backoff of each count;
    the globals and the store client are as before the streak. *)
Theorem failure_streak (cfg : config) (before fails : list cycle_env)
    (w : world) :
  Forall (λ env, is_ok (fetched env) = false) fails →
  let ls0 := run cfg before w in
  let ls := run cfg (before ++ fails) w in
  consecutive_errors ls = consecutive_errors ls0 + Z.of_nat (length fails) ∧
  waits ls
  = waits ls0 ++ map (λ i, _backoff_sleep (consecutive_errors ls0 + i))
                     (seqZ 1 (Z.of_nat (length fails))) ∧
  globals (loop_world ls) = globals (loop_world ls0) ∧
  store_client (loop_world ls) = store_client (loop_world ls0).
Proof.
  intros Hfails. cbn zeta. rewrite !run_run_from, run_from_app.
  by apply run_from_fetch_failures.
Qed.

(** ** Cycles that write nothing *)

(** A cycle that only logs [r], whatever the store client and the log
    are, repeated [n] times. *)
Lemma run_from_quiet (cfg : config) (env : cycle_env) (r : log_record)
    (g : poll_state) :
  (∀ w, globals w = g → poll_once cfg env w = (Ok (), log w r)) →
  ∀ n ls, globals (loop_world ls) = g →
    let ls' := run_from cfg (replicate n env) ls in
    globals (loop_world ls') = g ∧
    store_client (loop_world ls') = store_client (loop_world ls) ∧
    logged (loop_world ls') = logged (loop_world ls) ++ replicate n r ∧
    waits ls' = waits ls ++ replicate n (POLL_INTERVAL_SECONDS cfg) ∧
    (n ≠ 0%nat → consecutive_errors ls' = 0).
Proof.
  intros Hquiet. induction n as [| n IH]; intros ls Hg; cbn zeta.
  - cbn. rewrite !app_nil_r. done.
  - cbn [replicate]. rewrite run_from_cons.
    assert (Hstep : run_iteration cfg env ls
              = {| consecutive_errors := 0;
                   waits := waits ls ++ [POLL_INTERVAL_SECONDS cfg];
                   loop_world := log (loop_world ls) r |}).
    { unfold run_iteration. by rewrite (Hquiet _ Hg). }
    specialize (IH (run_iteration cfg env ls)). rewrite Hstep in *.
    destruct (IH Hg) as (H1 & H2 & H3 & H4 & H5).
    cbn [loop_world waits consecutive_errors log globals store_client logged]
      in *.
    rewrite H1, H2, H3, H4, <- !app_assoc. repeat split; try done.
    intros _. destruct n; [done | by apply H5].
Qed.

(** Extra X5.  A document whose timestamp is the stored one, polled any
    number of times, leaves the globals and the store client as they
    were; each turn logs the skip, waits the poll interval and counts no
    failure. *)
Theorem repeated_duplicate_polls (cfg : config) (env : cycle_env)
    (data ts : json) (w : world) (n : nat) :
  fetched env = Ok data →
  py_get data "last_reading_at" JNull = Ok ts →
  is_duplicate ts (globals w) = true →
  let ls := run cfg (replicate n env) w in
  globals (loop_world ls) = globals w ∧
  store_client (loop_world ls) = store_client w ∧
  logged (loop_world ls)
  = logged w ++ replicate n (Debug_skipping_duplicate ts) ∧
  waits ls = replicate n (POLL_INTERVAL_SECONDS cfg) ∧
  consecutive_errors ls = 0.
Proof.
  intros Hf Ht Hd. cbn zeta. rewrite run_run_from.
  destruct (run_from_quiet cfg env (Debug_skipping_duplicate ts) (globals w))
    with (n := n)
         (ls := {| consecutive_errors := 0; waits := []; loop_world := w |})
    as (H1 & H2 & H3 & H4 & H5); [| done |].
  - intros w' Hg. unfold poll_once. by rewrite Hf, Ht, Hg, Hd.
  - repeat split; try done. destruct n; [done | by apply H5].
Qed.

(** Extra X6.  A document without a valid reading is not remembered:
    polled any number of times it is parsed each time, nothing is written
    and the globals stay as they were; each turn logs the warning, waits
    the poll interval and counts no failure. *)
Theorem repeated_empty_polls (cfg : config) (env : cycle_env)
    (data ts : json) (w : world) (n : nat) :
  fetched env = Ok data →
  py_get data "last_reading_at" JNull = Ok ts →
  is_duplicate ts (globals w) = false →
  parse_sensors data = Ok [] →
  let ls := run cfg (replicate n env) w in
  globals (loop_world ls) = globals w ∧
  store_client (loop_world ls) = store_client w ∧
  logged (loop_world ls) = logged w ++ replicate n Warning_no_valid_readings ∧
  waits ls = replicate n (POLL_INTERVAL_SECONDS cfg) ∧
  consecutive_errors ls = 0.
Proof.
  intros Hf Ht Hd Hp. cbn zeta. rewrite run_run_from.
  destruct (run_from_quiet cfg env Warning_no_valid_readings (globals w))
    with (n := n)
         (ls := {| consecutive_errors := 0; waits := []; loop_world := w |})
    as (H1 & H2 & H3 & H4 & H5); [| done |].
  - intros w' Hg. unfold poll_once. by rewrite Hf, Ht, Hg, Hd, Hp.
  - repeat split; try done. destruct n; [done | by apply H5].
Qed.

(** ** The poll count and the writes *)

(** One cycle: the calls of [write] only grow, by a non-empty record at
    most; the count grows only with a call; the time of the last poll is
    never taken back. *)
Lemma poll_once_counts (cfg : config) (env : cycle_env) (w : world) :
  let w' := snd (poll_once cfg env w) in
  ∃ new,
    write_calls (store_client w') = write_calls (store_client w) ++ new ∧
    Forall (λ c, record c ≠ []) new ∧
    (length new ≤ 1)%nat ∧
    0 ≤ _polls_total (globals w') - _polls_total (globals w)
      ≤ Z.of_nat (length new) ∧
    (store env = None →
     _polls_total (globals w') - _polls_total (globals w)
     = Z.of_nat (length new)) ∧
    (is_Some (_last_poll_ts (globals w)) →
     is_Some (_last_poll_ts (globals w'))).
Proof.
  cbn zeta.
  destruct (poll_once_outcome cfg env w)
    as [ e _ | data ts _ _ _ | data ts _ _ _ _
       | data ts r rs e cl _ _ _ _ Hw | data ts r rs count cl _ _ _ _ Hw ];
    cbn [snd log with_client globals store_client].
  1-3: exists []; rewrite app_nil_r, Z.sub_diag; repeat split; try done; cbn; lia.
  - apply write_to_influxdb_client in Hw
      as [[? _] | [_ [(e' & _ & ->) | (c & -> & Hlen & Hres)]]]; [done | |].
    + exists []. rewrite app_nil_r, Z.sub_diag. repeat split; try done; cbn; lia.
    + exists [c]. rewrite Z.sub_diag. repeat split; try done; cbn; try lia.
      * constructor; [| done]. intros Hnil. by rewrite Hnil in Hlen.
      * intros Hs. by rewrite Hs in Hres.
  - apply write_to_influxdb_client in Hw
      as [[? _] | [_ [(e' & ? & _) | (c & -> & Hlen & Hres)]]]; [done.. |].
    exists [c]. cbn [_polls_total _last_poll_ts length].
    repeat split; try done; try lia.
    constructor; [| done]. intros Hnil. by rewrite Hnil in Hlen.
Qed.

Lemma run_iteration_world (cfg : config) (env : cycle_env) (ls : loop_state) :
  globals (loop_world (run_iteration cfg env ls))
  = globals (snd (poll_once cfg env (loop_world ls))) ∧
  store_client (loop_world (run_iteration cfg env ls))
  = store_client (snd (poll_once cfg env (loop_world ls))).
Proof.
  unfold run_iteration.
  by destruct (poll_once cfg env (loop_world ls)) as [[[] | e] w].
Qed.

(** Extra X7.  Over any run the calls of [write] already made stay as
    they are, each new one carries a record that is not empty, and there
    is at most one per turn; the poll count never decreases and grows by
    no more than the new calls, by exactly their number when the store
    accepts every write; the time of the last poll, once set, stays
    set. *)
Theorem poll_count_and_writes (cfg : config) (schedule : list cycle_env)
    (w : world) :
  let w' := loop_world (run cfg schedule w) in
  ∃ new,
    write_calls (store_client w') = write_calls (store_client w) ++ new ∧
    Forall (λ c, record c ≠ []) new ∧
    (length new ≤ length schedule)%nat ∧
    0 ≤ _polls_total (globals w') - _polls_total (globals w)
      ≤ Z.of_nat (length new) ∧
    (Forall (λ env, store env = None) schedule →
     _polls_total (globals w') - _polls_total (globals w)
     = Z.of_nat (length new)) ∧
    (is_Some (_last_poll_ts (globals w)) →
     is_Some (_last_poll_ts (globals w'))).
Proof.
  cbn zeta. induction schedule as [| env schedule IH] using rev_ind.
  - exists []. cbn. rewrite app_nil_r, Z.sub_diag. repeat split; try done; lia.
  - destruct IH as (new & Hw & Hall & Hlen & Hp & Heq & Hts).
    rewrite run_snoc.
    destruct (run_iteration_world cfg env (run cfg schedule w)) as [-> ->].
    destruct (poll_once_counts cfg env (loop_world (run cfg schedule w)))
      as (new' & Hw' & Hall' & Hlen' & Hp' & Heq' & Hts').
    exists (new ++ new'). rewrite Hw', Hw, <- app_assoc, !length_app.
    repeat split; try done.
    + by apply Forall_app.
    + cbn. lia.
    + lia.
    + lia.
    + intros [Hs Henv%Forall_inv]%Forall_app.
      specialize (Heq Hs). specialize (Heq' Henv). lia.
    + intros H. by apply Hts', Hts.
Qed.

(** ** Which errors the collector's own code raises *)

Lemma bind_Raise_inv {A B} (m : pyresult A) (f : A → pyresult B) (e : exn) :
  m ≫= f = Raise e → m = Raise e ∨ ∃ a, m = Ok a ∧ f a = Raise e.
Proof.
  destruct m as [a | e']; intros H; [right; by exists a |].
  left. cbn in H. by injection H as ->.
Qed.

Lemma py_get_error (o : json) (key : string) (default : json) (e : exn) :
  py_get o key default = Raise e → is_builtin_error e = true.
Proof. destruct o; try done; by intros [= <-]. Qed.

Lemma float_of_string_error (s : string) (e : exn) :
  float_of_string s = Raise e → is_builtin_error e = true.
Proof.
  unfold float_of_string. destruct (sign _) as [neg l].
  repeat case_match; try done; by intros [= <-].
Qed.

Lemma py_float_error (o : json) (e : exn) :
  py_float o = Raise e → is_builtin_error e = true.
Proof.
  destruct o as [| b | z | x | s | l | d]; cbn [py_float]; try done;
    try (by intros [= <-]).
  - unfold float_of_int. by destruct (fround z 0); intros [= <-].
  - apply float_of_string_error.
Qed.

Lemma parse_entry_error (data s : json) (e : exn) :
  parse_entry data s = Raise e → is_builtin_error e = true.
Proof.
  unfold parse_entry. intros H.
  apply bind_Raise_inv in H as [H | (sid & _ & H)];
    [by eapply py_get_error |].
  apply bind_Raise_inv in H as [H | ([name |] & _ & H)]; [| | done].
  { destruct sid; try done; by injection H as <-. }
  apply bind_Raise_inv in H as [H | (v & _ & H)]; [by eapply py_get_error |].
  destruct (is_null v); [done |].
  apply bind_Raise_inv in H as [H | (own & _ & H)]; [by eapply py_get_error |].
  apply bind_Raise_inv in H as [H | (ts & _ & H)].
  { destruct (py_truthy own); [done | by eapply py_get_error]. }
  destruct (is_null ts); [done |].
  apply bind_Raise_inv in H as [H | (x & _ & H)]; [| done].
  by eapply py_float_error.
Qed.

Lemma parse_sensors_error (data : json) (e : exn) :
  parse_sensors data = Raise e → is_builtin_error e = true.
Proof.
  unfold parse_sensors, sensor_entries. intros H.
  apply bind_Raise_inv in H as [H | (entries & _ & H)].
  - apply bind_Raise_inv in H as [H | (inner & _ & H)];
      [by eapply py_get_error |].
    apply bind_Raise_inv in H as [H | (sensors & _ & H)];
      [by eapply py_get_error |].
    destruct sensors; try done; by injection H as <-.
  - generalize dependent (@nil reading).
    induction entries as [| s entries IH]; intros acc H; [done |].
    cbn [parse_loop] in H.
    apply bind_Raise_inv in H as [H | (o & _ & H)];
      [by eapply parse_entry_error | by eapply IH].
Qed.

Lemma iso_to_ns_error (o : json) (e : exn) :
  _iso_to_ns o = Raise e → is_builtin_error e = true.
Proof.
  destruct o as [| | | | s | |]; cbn [_iso_to_ns]; try (by intros [= <-]).
  intros H. apply bind_Raise_inv in H as [H | (dt & _ & H)].
  - unfold Datetime.fromisoformat in H.
    repeat case_match; try done; by injection H as <-.
  - apply bind_Raise_inv in H as [H | (ts & _ & H)].
    + unfold Datetime.timestamp in H.
      repeat case_match; try done; by injection H as <-.
    + unfold int_of_float in H.
      repeat case_match; try done; by injection H as <-.
Qed.

Lemma encode_loop_error (readings : list reading) (device_id : string) (e : exn) :
  ∀ acc, encode_loop readings device_id acc = Raise e →
         is_builtin_error e = true.
Proof.
  induction readings as [| r readings IH]; intros acc H; [done |].
  cbn [encode_loop] in H.
  apply bind_Raise_inv in H as [H | (ts & _ & H)];
    [by eapply iso_to_ns_error | by eapply IH].
Qed.

(** Extra X11.  When the fetch returned and the store accepts writes, a
    cycle can only raise [AttributeError], [TypeError], [ValueError] or
    [OverflowError], and the loop logs it as an unexpected error; a
    [RequestException] of the fetch is logged as a failed API request. *)
Theorem own_errors_logged_as_unexpected :
  (∀ cfg env ls data e,
     fetched env = Ok data → store env = None →
     fst (poll_once cfg env (loop_world ls)) = Raise e →
     is_builtin_error e = true ∧
     last_logged (loop_world (run_iteration cfg env ls))
     = Some (Exception_unexpected_error (consecutive_errors ls + 1)
               (_backoff_sleep (consecutive_errors ls + 1)) e)) ∧
  (∀ cfg env ls detail,
     fetched env = Raise (RequestException detail) →
     last_logged (loop_world (run_iteration cfg env ls))
     = Some (Error_api_request_failed (consecutive_errors ls + 1)
               (_backoff_sleep (consecutive_errors ls + 1))
               (RequestException detail))).
Proof.
  split.
  - intros cfg env ls data e Hf Hs Hraise.
    assert (Hb : is_builtin_error e = true).
    { destruct (poll_once_outcome cfg env (loop_world ls))
        as [ e' H | | | data' ts r rs e' cl _ _ _ _ Hw | ]; try done.
      - cbn [fst] in Hraise. injection Hraise as ->.
        destruct H as [H | (data' & _ & [H | (ts & _ & _ & H)])].
        + congruence.
        + by eapply py_get_error.
        + by eapply parse_sensors_error.
      - cbn [fst] in Hraise. injection Hraise as ->.
        unfold write_to_influxdb in Hw. rewrite Hs in Hw.
        destruct (encode_loop _ _ _) eqn:Hl; [done |].
        injection Hw as -> _. by eapply encode_loop_error. }
    split; [done |].
    destruct (run_iteration_cases cfg env ls)
      as [(Hok & _) | (e' & He' & _ & _ & ->)]; [congruence |].
    rewrite Hraise in He'. injection He' as <-.
    unfold last_logged. cbn [log logged]. rewrite last_snoc.
    by destruct e.
  - intros cfg env ls detail Hf.
    rewrite (run_iteration_fetch_fails cfg env ls _ Hf).
    unfold last_logged. cbn [loop_world log logged]. by rewrite last_snoc.
Qed.

(** ** The catalog *)

Lemma catalog_items_safe :
  Forall (λ kv : Z * string, tag_safe kv.2 = true) (map_to_list SENSOR_NAME_MAP).
Proof. apply (bool_decide_unpack _). vm_compute. exact I. Qed.

Lemma catalog_names_NoDup : NoDup (map_to_list SENSOR_NAME_MAP).*2.
Proof. apply (bool_decide_unpack _). vm_compute. exact I. Qed.

Lemma catalog_name_safe (z : Z) (name : string) :
  SENSOR_NAME_MAP !! z = Some name → tag_safe name = true.
Proof.
  intros H%elem_of_map_to_list.
  by apply (proj1 (Forall_forall _ _) catalog_items_safe (z, name)).
Qed.

(** Extra X12.  The catalog gives no two sensor ids the same name, and
    every name is made of lower-case letters, digits and underscores; so
    the [sensor_name] of every reading of [parse_sensors] needs no
    escaping as a tag value. *)
Theorem catalog_names_distinct_and_safe :
  (∀ z1 z2 name,
     SENSOR_NAME_MAP !! z1 = Some name → SENSOR_NAME_MAP !! z2 = Some name →
     z1 = z2) ∧
  (∀ z name, SENSOR_NAME_MAP !! z = Some name → tag_safe name = true) ∧
  (∀ data rs, parse_sensors data = Ok rs →
     Forall (λ r, tag_safe (sensor_name r) = true) rs).
Proof.
  split; [| split].
  - intros z1 z2 name H1%elem_of_map_to_list H2%elem_of_map_to_list.
    apply list_elem_of_lookup in H1 as (i & Hi), H2 as (j & Hj).
    assert (i = j) as ->.
    { apply (NoDup_lookup _ i j name catalog_names_NoDup);
        rewrite list_lookup_fmap; [by rewrite Hi | by rewrite Hj]. }
    congruence.
  - apply catalog_name_safe.
  - intros data rs H. unfold parse_sensors in H.
    apply bind_Ok in H as (entries & _ & H).
    apply parse_loop_sublist in H as (kept & new & -> & _ & Hall).
    cbn [app]. induction Hall as [| s r kept new Hr _ IH]; constructor; [| done].
    apply parse_entry_Some in Hr as [(z & _ & _ & Hname & _) _].
    by eapply catalog_name_safe.
Qed.

(** ** How the normalizer composes *)

(** The normalizer reads the payload's entries and its top-level
    timestamp, nothing else. *)
Lemma parse_entry_reads_timestamp (data data' s : json) :
  py_get data "last_reading_at" JNull = py_get data' "last_reading_at" JNull →
  parse_entry data s = parse_entry data' s.
Proof.
  intros H. unfold parse_entry.
  destruct (py_get s "id" (JInt (-1))) as [sid |]; [| done]. cbn.
  destruct (SENSOR_NAME_MAP_get sid) as [[name |] |]; [| done..]. cbn.
  destruct (py_get s "value" JNull) as [v |]; [| done]. cbn.
  destruct (is_null v); [done |].
  destruct (py_get s "last_reading_at" JNull) as [own |]; [| done]. cbn.
  destruct (py_truthy own); [done |]. by rewrite H.
Qed.

Lemma parse_loop_reads_timestamp (data data' : json) (entries : list json) :
  py_get data "last_reading_at" JNull = py_get data' "last_reading_at" JNull →
  ∀ acc, parse_loop data entries acc = parse_loop data' entries acc.
Proof.
  intros H. induction entries as [| s entries IH]; intros acc; [done |].
  cbn [parse_loop]. rewrite (parse_entry_reads_timestamp data data' s H).
  destruct (parse_entry data' s); [| done]. apply IH.
Qed.

Lemma parse_loop_app (data : json) (l1 l2 : list json) :
  ∀ acc, parse_loop data (l1 ++ l2) acc
         = parse_loop data l1 acc ≫= parse_loop data l2.
Proof.
  induction l1 as [| s l1 IH]; intros acc; [done |].
  cbn [app parse_loop]. destruct (parse_entry data s); [| done]. apply IH.
Qed.

Lemma parse_loop_acc (data : json) (entries : list json) :
  ∀ acc, parse_loop data entries acc
         = rs ← parse_loop data entries []; Ok (acc ++ rs).
Proof.
  induction entries as [| s entries IH]; intros acc.
  - cbn. by rewrite app_nil_r.
  - cbn [parse_loop]. destruct (parse_entry data s) as [[r |] |]; cbn; [| done..].
    rewrite (IH (acc ++ [r])), (IH [r]).
    destruct (parse_loop data entries []); cbn; [| done].
    by rewrite <- app_assoc.
Qed.

(** Extra X13.  With the same top-level timestamp, the readings of a
    payload whose entries are two lists end to end are the readings of
    the first list followed by those of the second, and the payload
    raises when one of the two does. *)
Theorem parse_sensors_concatenation (data data1 data2 : json)
    (l1 l2 : list json) :
  sensor_entries data1 = Ok l1 → sensor_entries data2 = Ok l2 →
  sensor_entries data = Ok (l1 ++ l2) →
  py_get data1 "last_reading_at" JNull = py_get data "last_reading_at" JNull →
  py_get data2 "last_reading_at" JNull = py_get data "last_reading_at" JNull →
  parse_sensors data
  = rs1 ← parse_sensors data1; rs2 ← parse_sensors data2; Ok (rs1 ++ rs2).
Proof.
  intros H1 H2 H Ht1 Ht2. unfold parse_sensors. rewrite H1, H2, H. cbn.
  rewrite parse_loop_app.
  rewrite (parse_loop_reads_timestamp data1 data l1 Ht1).
  rewrite (parse_loop_reads_timestamp data2 data l2 Ht2).
  destruct (parse_loop data l1 []) as [rs1 |]; cbn; [| done].
  apply parse_loop_acc.
Qed.

Lemma parse_entry_skipped (data s : json) :
  skipped_entry s → parse_entry data s = Ok None.
Proof.
  intros (items & -> & Hskip). cbn zeta in Hskip.
  unfold parse_entry. rewrite !py_get_dict. cbn.
  destruct Hskip as [-> | [Hh Hnull]]; [done |].
  apply SENSOR_NAME_MAP_get_hashable in Hh as (o & ->). cbn.
  destruct o; [| done]. by rewrite Hnull.
Qed.

(** Extra X14.  An entry that is an object whose id is not in the
    catalog, or whose id can be hashed and whose value is [None] or
    absent, can be taken out of the payload: the result, readings or
    error, is the same. *)
Theorem skipped_entries_do_not_matter (data data' s : json)
    (l1 l2 : list json) :
  sensor_entries data = Ok (l1 ++ s :: l2) →
  sensor_entries data' = Ok (l1 ++ l2) →
  py_get data "last_reading_at" JNull = py_get data' "last_reading_at" JNull →
  skipped_entry s →
  parse_sensors data = parse_sensors data'.
Proof.
  intros H H' Ht Hs. unfold parse_sensors. rewrite H, H'. cbn.
  rewrite (parse_loop_reads_timestamp data data' _ Ht).
  rewrite !parse_loop_app.
  destruct (parse_loop data' l1 []) as [rs1 |]; cbn; [| done].
  by rewrite (parse_entry_skipped data' s Hs).
Qed.

(** ** The healthcheck endpoint *)


(** ** Fetching *)

(** Extra X17.  A response with a status from 400 to 599 makes the fetch
    raise an [HTTPError] even when its body is a good document: the turn
    counts a failure, logs a failed API request, and leaves the globals
    and the store client as they were. *)
Theorem error_status_is_a_failed_request (api_base : string) (cfg : config)
    (get : string → pyresult http_response) (resp : http_response)
    (store : option exn) (utc_now : string) (ls : loop_state) :
  get (device_url api_base (SCK_DEVICE_ID cfg)) = Ok resp →
  400 ≤ status_code resp < 600 →
  let env := cycle_with api_base cfg get store utc_now in
  let ls' := run_iteration cfg env ls in
  fetched env = Raise (RequestException "HTTPError") ∧
  consecutive_errors ls' = consecutive_errors ls + 1 ∧
  globals (loop_world ls') = globals (loop_world ls) ∧
  store_client (loop_world ls') = store_client (loop_world ls) ∧
  last_logged (loop_world ls')
  = Some (Error_api_request_failed (consecutive_errors ls + 1)
            (_backoff_sleep (consecutive_errors ls + 1))
            (RequestException "HTTPError")).
Proof.
  intros Hget Hstatus. cbn zeta.
  assert (Hf : fetched (cycle_with api_base cfg get store utc_now)
               = Raise (RequestException "HTTPError")).
  { cbn [cycle_with fetched]. unfold fetch_device_data. rewrite Hget. cbn.
    unfold raise_for_status.
    destruct (Z.leb_spec 400 (status_code resp)); [| lia].
    destruct (Z.ltb_spec (status_code resp) 600); [done | lia]. }
  split; [done |].
  rewrite (run_iteration_fetch_fails cfg _ ls _ Hf).
  unfold last_logged. cbn [consecutive_errors loop_world log globals
    store_client logged is_request_exception].
  by rewrite last_snoc.
Qed.

(** ** Loading the configuration *)

Lemma env_insert_ne (environ : gmap string string) (k key v default : string) :
  k ≠ key → _env (<[k := v]> environ) key default = _env environ key default.
Proof. intros H. unfold _env. by rewrite lookup_insert_ne. Qed.

Lemma env_insert_eq (environ : gmap string string) (key v default : string) :
  _env (<[key := v]> environ) key default = v.
Proof. unfold _env. by rewrite lookup_insert_eq. Qed.

(** Extra X18.  Without variables the settings are the defaults.  A
    variable config.py does not read changes nothing; [SCK_DEVICE_ID]
    sets the device id and leaves the interval, the organisation and the
    bucket; [POLL_INTERVAL_SECONDS] sets the interval when [int] accepts
    it; a value [int] refuses, there or in [HEALTH_PORT], makes the
    loading raise [ValueError]. *)
Theorem settings_follow_the_environment :
  (∃ s, Settings.load ∅ = Ok s ∧ config_of s = default_config ∧
        Settings.HEALTH_PORT s = 8000) ∧
  (∀ environ k v, k ∉ Settings.names →
     Settings.load (<[k := v]> environ) = Settings.load environ) ∧
  (∀ environ v s, Settings.load environ = Ok s →
     ∃ s', Settings.load (<["SCK_DEVICE_ID"%string := v]> environ) = Ok s' ∧
           SCK_DEVICE_ID (config_of s') = v ∧
           POLL_INTERVAL_SECONDS (config_of s')
           = POLL_INTERVAL_SECONDS (config_of s) ∧
           INFLUXDB_ORG (config_of s') = INFLUXDB_ORG (config_of s) ∧
           INFLUXDB_BUCKET (config_of s') = INFLUXDB_BUCKET (config_of s)) ∧
  (∀ environ v n, int_of_string v = Ok n →
     is_ok (Settings.load environ) = true →
     ∃ s', Settings.load (<["POLL_INTERVAL_SECONDS"%string := v]> environ)
           = Ok s' ∧
           POLL_INTERVAL_SECONDS (config_of s') = n) ∧
  (∀ environ v e, int_of_string v = Raise e →
     Settings.load (<["POLL_INTERVAL_SECONDS"%string := v]> environ)
     = Raise ValueError ∧
     (is_ok (int_of_string (_env environ "POLL_INTERVAL_SECONDS" "60")) = true →
      Settings.load (<["HEALTH_PORT"%string := v]> environ)
      = Raise ValueError)).
Proof.
  assert (Herr : ∀ v e, int_of_string v = Raise e → e = ValueError).
  { intros v e. unfold int_of_string. destruct (FloatParse.sign _) as [neg l].
    repeat case_match; try done; by intros [= <-]. }
  split; [| split; [| split; [| split]]].
  - eexists. split; [vm_compute; reflexivity |]. by vm_compute.
  - intros environ k v Hk. unfold Settings.load.
    rewrite !env_insert_ne; [done | intros ->; apply Hk; unfold Settings.names;
      set_solver..].
  - intros environ v s H. unfold Settings.load in *.
    rewrite env_insert_eq, !env_insert_ne by done.
    destruct (int_of_string (_env environ "POLL_INTERVAL_SECONDS" "60"));
      [| done].
    destruct (int_of_string (_env environ "HEALTH_PORT" "8000")); [| done].
    cbn in *. injection H as <-. by eexists.
  - intros environ v n Hv H. unfold Settings.load in *.
    rewrite env_insert_eq, !env_insert_ne by done. rewrite Hv.
    destruct (int_of_string (_env environ "POLL_INTERVAL_SECONDS" "60"));
      [| done].
    destruct (int_of_string (_env environ "HEALTH_PORT" "8000")); [| done].
    cbn. by eexists.
  - intros environ v e Hv. pose proof (Herr _ _ Hv) as ->.
    unfold Settings.load. split.
    + rewrite env_insert_eq. by rewrite Hv.
    + rewrite env_insert_eq, !env_insert_ne by done.
      destruct (int_of_string (_env environ "POLL_INTERVAL_SECONDS" "60"));
        [| done].
      intros _. cbn. by rewrite Hv.
Qed.

(** ** A cycle that writes *)

(** Extra X3.  A cycle that returns over a document that is no duplicate
    and has readings has written them all in one call, one line each in
    their order, under the configured device, bucket and organisation;
    it has stored the document's timestamp and the time, counted one more
    poll, and logged the count. *)
Theorem written_cycle_writes_every_reading (cfg : config) (env : cycle_env)
    (w w' : world) (data ts : json) (r : reading) (rs : list reading) :
  fetched env = Ok data →
  py_get data "last_reading_at" JNull = Ok ts →
  is_duplicate ts (globals w) = false →
  parse_sensors data = Ok (r :: rs) →
  poll_once cfg env w = (Ok (), w') →
  (∃ c, write_calls (store_client w') = write_calls (store_client w) ++ [c] ∧
        bucket c = INFLUXDB_BUCKET cfg ∧ org c = INFLUXDB_ORG cfg ∧
        Forall2 (point_of (SCK_DEVICE_ID cfg)) (r :: rs) (record c)) ∧
  globals w' = {| _last_poll_ts := Some (utc_now env);
                  _polls_total := _polls_total (globals w) + 1;
                  _last_reading_at := ts |} ∧
  last_logged w'
  = Some (Info_written (Z.of_nat (length (r :: rs))) ts
            (_polls_total (globals w) + 1)).
Proof.
  intros Hf Ht Hd Hp H. unfold poll_once in H. rewrite Hf, Ht, Hd, Hp in H.
  destruct (write_to_influxdb cfg (store env) (store_client w) (r :: rs)
              (SCK_DEVICE_ID cfg)) as [[count |] cl] eqn:Hw; [| done].
  injection H as <-.
  unfold write_to_influxdb in Hw.
  destruct (encode_loop (r :: rs) (SCK_DEVICE_ID cfg) []) as [lines |]
    eqn:Hlines; [| done].
  pose proof (encode_loop_length _ _ _ _ Hlines) as Hlen.
  apply encode_loop_points in Hlines as (new & -> & Hall).
  cbn [app] in *. destruct (store env); [done |]. injection Hw as <- <-.
  cbn [store_client globals write_calls].
  split; [eexists; split; [done |]; by repeat split |]. split; [done |].
  unfold last_logged. cbn [logged]. by rewrite last_snoc, Hlen.
Qed.

(** The reading of scenario A, written on a fresh client. *)
Lemma write_success_is_one_call_witness :
  ∃ c, write_calls
         (snd (write_to_influxdb default_config None empty_client [reading_A]
                 "19396")) = [c] ∧
       Forall2 (point_of "19396") [reading_A] (record c).
Proof.
  pose (cl' := {| write_api_calls := 1; write_calls := [call_A] |}).
  assert (H : write_to_influxdb default_config None empty_client [reading_A]
                "19396" = (Ok 1, cl')) by (vm_compute; reflexivity).
  destruct (write_success_is_one_call default_config None empty_client cl'
              [reading_A] "19396" 1 ltac:(discriminate) H)
    as (_ & _ & _ & c & Hc & _ & _ & Hall).
  exists c. rewrite H. split; [exact Hc | exact Hall].
Defined.

(** A good reading followed by one stamped [yesterday]. *)
Lemma write_bad_timestamp_writes_nothing_witness :
  ∃ cl', write_to_influxdb default_config None empty_client
           [reading_A; reading_bad_time] "19396" = (Raise ValueError, cl') ∧
         write_calls cl' = [] ∧ write_api_calls cl' = 1%nat.
Proof.
  apply (write_bad_timestamp_writes_nothing default_config None empty_client
           [reading_A] [] reading_bad_time "19396" ValueError).
  - constructor; [vm_compute; reflexivity | constructor].
  - vm_compute. reflexivity.
Defined.

(** The stored timestamp [T1] against itself. *)
Lemma skip_needs_stored_timestamp_witness :
  py_truthy (JStr T1) = true ∧
  py_truthy (_last_reading_at (globals (world_after (JStr T1)))) = true ∧
  _last_reading_at (globals (world_after (JStr T1))) ≠ JNull.
Proof.
  apply (proj1 skip_needs_stored_timestamp). vm_compute. reflexivity.
Defined.

(** The third and the twelfth failure. *)
Lemma backoff_doubles_then_saturates_witness :
  _backoff_sleep 3 = 2 ^ 3 ∧ _backoff_sleep 12 = 300.
Proof.
  destruct backoff_doubles_then_saturates as (H1 & _ & H3 & _).
  split; [apply H1; lia | apply H3; lia].
Defined.

(** A written cycle, then three timeouts. *)
Lemma failure_streak_witness :
  let fails := [fetch_fails (RequestException "timeout");
                fetch_fails (RequestException "timeout");
                fetch_fails (RequestException "timeout")] in
  let ls0 := run default_config [fetch_ok scenario_A] initial_world in
  let ls := run default_config ([fetch_ok scenario_A] ++ fails) initial_world in
  consecutive_errors ls = consecutive_errors ls0 + 3 ∧
  waits ls = waits ls0 ++ map (λ i, _backoff_sleep (consecutive_errors ls0 + i))
                              (seqZ 1 3) ∧
  globals (loop_world ls) = globals (loop_world ls0) ∧
  store_client (loop_world ls) = store_client (loop_world ls0).
Proof.
  apply (failure_streak default_config [fetch_ok scenario_A]
           [fetch_fails (RequestException "timeout");
            fetch_fails (RequestException "timeout");
            fetch_fails (RequestException "timeout")] initial_world).
  repeat constructor.
Defined.

(** Scenario A polled five times after it was written. *)
Lemma repeated_duplicate_polls_witness :
  let ls := run default_config (replicate 5 (fetch_ok scenario_A))
              (world_after (JStr T1)) in
  globals (loop_world ls) = globals (world_after (JStr T1)) ∧
  store_client (loop_world ls) = store_client (world_after (JStr T1)) ∧
  logged (loop_world ls)
  = logged (world_after (JStr T1))
    ++ replicate 5 (Debug_skipping_duplicate (JStr T1)) ∧
  waits ls = replicate 5 (POLL_INTERVAL_SECONDS default_config) ∧
  consecutive_errors ls = 0.
Proof.
  apply (repeated_duplicate_polls default_config (fetch_ok scenario_A)
           scenario_A (JStr T1) (world_after (JStr T1)) 5);
    vm_compute; reflexivity.
Defined.

(** An empty sensor list polled three times. *)
Lemma repeated_empty_polls_witness :
  let ls := run default_config (replicate 3 (fetch_ok no_sensors_doc))
              initial_world in
  globals (loop_world ls) = globals initial_world ∧
  store_client (loop_world ls) = store_client initial_world ∧
  logged (loop_world ls)
  = logged initial_world ++ replicate 3 Warning_no_valid_readings ∧
  waits ls = replicate 3 (POLL_INTERVAL_SECONDS default_config) ∧
  consecutive_errors ls = 0.
Proof.
  apply (repeated_empty_polls default_config (fetch_ok no_sensors_doc)
           no_sensors_doc (JStr T1) initial_world 3);
    vm_compute; reflexivity.
Defined.

(** Two documents with different timestamps, both written. *)
Lemma poll_count_and_writes_witness :
  let w' := loop_world (run default_config
              [fetch_ok scenario_A; fetch_ok earlier_doc] initial_world) in
  ∃ new,
    write_calls (store_client w') = write_calls (store_client initial_world) ++ new ∧
    _polls_total (globals w') - _polls_total (globals initial_world)
    = Z.of_nat (length new).
Proof.
  destruct (poll_count_and_writes default_config
              [fetch_ok scenario_A; fetch_ok earlier_doc] initial_world)
    as (new & Hw & _ & _ & _ & Heq & _).
  exists new. split; [exact Hw |]. apply Heq. repeat constructor.
Defined.

(** The value [abc] of sensor 56. *)
Lemma own_errors_logged_as_unexpected_witness :
  is_builtin_error ValueError = true ∧
  last_logged (loop_world (run_iteration default_config (fetch_ok bad_value_doc)
                             (loop_start initial_world)))
  = Some (Exception_unexpected_error (0 + 1) (_backoff_sleep (0 + 1)) ValueError).
Proof.
  apply (proj1 own_errors_logged_as_unexpected default_config
           (fetch_ok bad_value_doc) (loop_start initial_world) bad_value_doc
           ValueError); vm_compute; reflexivity.
Defined.

(** The reading of scenario A. *)
Lemma catalog_names_distinct_and_safe_witness :
  Forall (λ r, tag_safe (sensor_name r) = true) [reading_A].
Proof.
  apply (proj2 (proj2 catalog_names_distinct_and_safe) scenario_A).
  vm_compute. reflexivity.
Defined.

(** Scenario A, cut after its first entry. *)
Lemma parse_sensors_concatenation_witness :
  parse_sensors (payload_of [entry_55; entry_9999; entry_56_null])
  = rs1 ← parse_sensors (payload_of [entry_55]);
    rs2 ← parse_sensors (payload_of [entry_9999; entry_56_null]);
    Ok (rs1 ++ rs2).
Proof.
  apply (parse_sensors_concatenation _ _ _ [entry_55]
           [entry_9999; entry_56_null]); reflexivity.
Defined.

(** Scenario A without its unmapped entry. *)
Lemma skipped_entries_do_not_matter_witness :
  parse_sensors (payload_of [entry_55; entry_9999; entry_56_null])
  = parse_sensors (payload_of [entry_55; entry_56_null]).
Proof.
  apply (skipped_entries_do_not_matter _ _ entry_9999 [entry_55]
           [entry_56_null]); try reflexivity.
  exists [("id", JInt 9999); ("value", JFloat (F_fin 1 0))]%string.
  split; [reflexivity |]. left. vm_compute. reflexivity.
Defined.


(** A server that answers 503 with the document of scenario A. *)
Lemma error_status_is_a_failed_request_witness :
  let env := cycle_with "https://api.smartcitizen.me/v0" default_config
               unavailable None "2026-02-04T17:02:00+00:00" in
  let ls' := run_iteration default_config env (loop_start initial_world) in
  fetched env = Raise (RequestException "HTTPError") ∧
  consecutive_errors ls' = 0 + 1 ∧
  globals (loop_world ls') = globals initial_world ∧
  store_client (loop_world ls') = store_client initial_world ∧
  last_logged (loop_world ls')
  = Some (Error_api_request_failed (0 + 1) (_backoff_sleep (0 + 1))
            (RequestException "HTTPError")).
Proof.
  apply (error_status_is_a_failed_request "https://api.smartcitizen.me/v0"
           default_config unavailable
           {| status_code := 503; json_body := Ok scenario_A |} None
           "2026-02-04T17:02:00+00:00" (loop_start initial_world));
    [reflexivity | cbn; lia].
Defined.

(** [PATH] is not read, and [5m] is no interval. *)
Lemma settings_follow_the_environment_witness :
  Settings.load (<["PATH"%string := "/usr/bin"%string]> ∅) = Settings.load ∅ ∧
  Settings.load (<["POLL_INTERVAL_SECONDS"%string := "5m"%string]> ∅)
  = Raise ValueError.
Proof.
  destruct settings_follow_the_environment as (_ & Hframe & _ & _ & Hbad).
  split.
  - apply Hframe. vm_compute. intros H. 
    repeat (apply elem_of_cons in H as [H | H]; [discriminate H |]).
    by apply elem_of_nil in H.
  - apply (Hbad ∅ "5m"%string ValueError). vm_compute. reflexivity.
Defined.

(** Scenario A from the initial state. *)
Lemma written_cycle_writes_every_reading_witness :
  (∃ c, write_calls (store_client
                       (snd (poll_once default_config (fetch_ok scenario_A)
                               initial_world)))
        = write_calls (store_client initial_world) ++ [c] ∧
        bucket c = "sck_data"%string ∧ org c = "sck"%string ∧
        Forall2 (point_of "19396") [reading_A] (record c)) ∧
  globals (snd (poll_once default_config (fetch_ok scenario_A) initial_world))
  = {| _last_poll_ts := Some "2026-02-04T17:02:00+00:00"%string;
       _polls_total := 0 + 1;
       _last_reading_at := JStr T1 |} ∧
  last_logged (snd (poll_once default_config (fetch_ok scenario_A)
                      initial_world))
  = Some (Info_written 1 (JStr T1) (0 + 1)).
Proof.
  pose (w' := snd (poll_once default_config (fetch_ok scenario_A) initial_world)).
  apply (written_cycle_writes_every_reading default_config (fetch_ok scenario_A)
           initial_world w' scenario_A (JStr T1) reading_A []);
    vm_compute; reflexivity.
Defined.

(** ** No reading is lost *)

(** The converse of [parse_entry_Some]. *)
Lemma parse_entry_kept (data s : json) (r : reading) :
  reading_from data s r →
  SENSOR_NAME_MAP_get (sensor_id r) = Ok (Some (sensor_name r)) →
  timestamp r ≠ JNull →
  parse_entry data s = Ok (Some r).
Proof.
  intros (Hid & (v & Hv & Hnull & Hx) & (own & Hown & Hts)) Hname Hnn.
  unfold parse_entry. rewrite Hid. cbn. rewrite Hname. cbn. rewrite Hv. cbn.
  apply is_null_false in Hnull, Hnn. rewrite Hnull, Hown. cbn.
  destruct (py_truthy own).
  - cbn. rewrite <- Hts, Hnn, Hx. cbn. by destruct r.
  - rewrite Hts. cbn. rewrite Hnn, Hx. cbn. by destruct r.
Qed.

Lemma parse_loop_keeps (data s : json) (r : reading) (entries : list json) :
  s ∈ entries → parse_entry data s = Ok (Some r) →
  ∀ acc rs, parse_loop data entries acc = Ok rs → r ∈ rs.
Proof.
  intros Hin Hs. induction Hin as [s entries | s s' entries _ IH];
    intros acc rs H; cbn [parse_loop] in H.
  - rewrite Hs in H. cbn in H.
    apply parse_loop_sublist in H as (_ & new & -> & _).
    apply elem_of_app. left. apply elem_of_app. right. apply list_elem_of_here.
  - apply bind_Ok in H as (o & _ & H). by eapply IH.
Qed.

(** Extra X15.  No reading is lost: when [parse_sensors] returns, the
    reading of every entry that has a catalog id, a value that [float]
    accepts and a timestamp, its own or the payload's, is in the
    result. *)
Theorem no_valid_entry_dropped (data s : json) (entries : list json)
    (rs : list reading) (r : reading) :
  sensor_entries data = Ok entries →
  parse_sensors data = Ok rs →
  s ∈ entries →
  reading_from data s r →
  SENSOR_NAME_MAP_get (sensor_id r) = Ok (Some (sensor_name r)) →
  timestamp r ≠ JNull →
  r ∈ rs.
Proof.
  intros Hentries Hparse Hin Hfrom Hname Hts.
  unfold parse_sensors in Hparse. rewrite Hentries in Hparse. cbn in Hparse.
  eapply parse_loop_keeps; [done | | done].
  by apply parse_entry_kept.
Qed.

(** The entry of sensor 55 in scenario A. *)
Lemma no_valid_entry_dropped_witness : reading_A ∈ [reading_A].
Proof.
  apply (no_valid_entry_dropped scenario_A entry_55
           [entry_55; entry_9999; entry_56_null] [reading_A] reading_A).
  - reflexivity.
  - vm_compute. reflexivity.
  - apply list_elem_of_here.
  - split; [reflexivity |]. split.
    + exists (JFloat float_21_4). repeat split. discriminate.
    + exists JNull. split; reflexivity.
  - vm_compute. reflexivity.
  - discriminate.
Defined.

(** ** The accuracy of nanosecond timestamps *)

(** Rounding to nearest moves a value by half a unit at most. *)
Lemma rne_error (a k : Z) :
  0 ≤ a → 0 < k →
  0 ≤ rne a k ∧ 2 * Z.abs (rne a k * 2 ^ k - a) ≤ 2 ^ k ∧ a / 2 ^ k ≤ rne a k ≤ a / 2 ^ k + 1.
Proof.
  intros Ha Hk. unfold rne.
  assert (Hh : 0 < 2 ^ (k - 1)) by (apply Z.pow_pos_nonneg; lia).
  assert (Hp : 2 ^ k = 2 * 2 ^ (k - 1)).
  { replace k with (1 + (k - 1)) at 1 by lia. rewrite Z.pow_add_r by lia. done. }
  pose proof (Z.div_mod a (2 ^ k) ltac:(lia)) as Hdm.
  pose proof (Z.mod_pos_bound a (2 ^ k) ltac:(lia)) as Hr.
  assert (Hq : 0 ≤ a / 2 ^ k) by (apply Z.div_pos; lia).
  generalize dependent (a / 2 ^ k). generalize dependent (a mod 2 ^ k).
  generalize dependent (2 ^ k). generalize dependent (2 ^ (k - 1)).
  intros h Hh p -> r Hr q Hdm Hq.
  destruct (Z.ltb_spec r h); [nia |].
  destruct (Z.ltb_spec h r); [nia |].
  destruct (Z.even q); nia.
Qed.

(** A sign: [1] or [-1]. *)

(** Rounding a value that is neither too small nor too large: a relative
    error of [2^-53] at most. *)
Lemma fround_error (a e : Z) :
  0 < a → emin ≤ e → Z.log2 a + e < 1023 →
  ∃ m k, 0 < m ≤ 2 ^ 53 ∧ 0 ≤ k ∧ k = Z.max 0 (Z.log2 a - 52) ∧
         2 ^ 53 * Z.abs (m * 2 ^ k - a) ≤ a ∧
         ∀ sg, (sg = 1 ∨ sg = -1) →
               fround (sg * a) e = F_fin (sg * m) (e + k).
Proof.
  intros Ha He Hov. unfold emin in He.
  pose proof (Z.log2_nonneg a) as HL0.
  destruct (Z.log2_spec a Ha) as [HLlo HLhi].
  set (L := Z.log2 a) in *.
  set (k := Z.max 0 (L - 52)).
  assert (Hk0 : 0 ≤ k) by (unfold k; lia).
  assert (Hpk : 0 < 2 ^ k) by (apply Z.pow_pos_nonneg; lia).
  (* the significand *)
  set (m := if k =? 0 then a else rne a k).
  assert (Hm : 0 < m ≤ 2 ^ 53 ∧ 2 ^ 53 * Z.abs (m * 2 ^ k - a) ≤ a).
  { unfold m. destruct (Z.eqb_spec k 0) as [Hk | Hk].
    - rewrite Hk, Z.pow_0_r, Z.mul_1_r, Z.sub_diag. cbn [Z.abs].
      assert (L ≤ 52) by (unfold k in Hk; lia).
      assert (2 ^ Z.succ L ≤ 2 ^ 53) by (apply Z.pow_le_mono_r; lia).
      lia.
    - assert (HkL : k = L - 52) by (unfold k in *; lia).
      destruct (rne_error a k ltac:(lia) ltac:(lia)) as (Hr0 & Herr & Hlo & Hhi).
      assert (Ha2 : 2 ^ L = 2 ^ 52 * 2 ^ k).
      { rewrite <- Z.pow_add_r by lia. f_equal. lia. }
      assert (Ha3 : 2 ^ Z.succ L = 2 ^ 53 * 2 ^ k).
      { rewrite <- Z.pow_add_r by lia. f_equal. lia. }
      assert (Hq : 2 ^ 52 ≤ a / 2 ^ k < 2 ^ 53).
      { split.
        - apply Z.div_le_lower_bound; lia.
        - apply Z.div_lt_upper_bound; lia. }
      split; [lia |].
      generalize dependent (rne a k). generalize dependent (2 ^ k).
      intros p Hp Hp2 Hp3 Hqb r Hr0 Herr Hlo Hhi. lia. }
  destruct Hm as (Hm1 & Hm2).
  exists m, k. split; [done |]. split; [done |]. split; [done |].
  split; [done |].
  intros sg Hsg. unfold fround, prec, emin, emax.
  assert (Habs : Z.abs (sg * a) = a) by (destruct Hsg as [-> | ->]; lia).
  assert (Hsgn : Z.sgn (sg * a) = sg) by (destruct Hsg as [-> | ->]; lia).
  rewrite Habs, Hsgn. fold L.
  replace (Z.max 0 (Z.max (L - (53 - 1)) (-1074 - e))) with k
    by (unfold k; lia).
  fold m. destruct (Z.eqb_spec m 0) as [? | _]; [lia |].
  assert (Hlm : Z.log2 m ≤ 53).
  { transitivity (Z.log2 (2 ^ 53)); [apply Z.log2_le_mono; lia |].
    by rewrite Z.log2_pow2. }
  assert (Hke : k + e ≤ L + e - 52 ∨ k = 0) by (unfold k; lia).
  destruct (Z.leb_spec 1024 (Z.log2 m + (e + k))) as [Hbad | _]; [| done].
  exfalso. destruct Hke as [Hke | Hke]; [lia |].
  (* k = 0: m = a *)
  unfold m in Hlm, Hbad. rewrite Hke in *. cbn in Hbad. fold L in Hbad. lia.
Qed.

(** Seconds from microseconds: [us / 10**6] for [0 < us < 2^62], with a
    relative error of [10 / 2^56] at most. *)
Lemma truediv_million_error (a : Z) :
  0 < a < 2 ^ 62 →
  ∃ m E, 0 < m ≤ 2 ^ 53 ∧ 0 < E ≤ 1074 ∧
         2 ^ 56 * Z.abs (m * 1000000 - a * 2 ^ E) ≤ 10 * (a * 2 ^ E) ∧
         ∀ sg, (sg = 1 ∨ sg = -1) →
               int_truediv (sg * a) 1000000 = F_fin (sg * m) (- E).
Proof.
  intros [Ha Hahi].
  pose proof (Z.log2_nonneg a) as HL0.
  destruct (Z.log2_spec a Ha) as [HLlo HLhi].
  assert (HL : Z.log2 a < 62) by (apply Z.log2_lt_pow2; lia).
  set (L := Z.log2 a) in *.
  set (s := 76 - L).
  assert (Hs : 15 ≤ s ≤ 76) by (unfold s; lia).
  assert (Hps : 0 < 2 ^ s) by (apply Z.pow_pos_nonneg; lia).
  (* the scaled dividend lies in [2^76, 2^77) *)
  assert (Hlo : 2 ^ 76 ≤ a * 2 ^ s).
  { replace (2 ^ 76) with (2 ^ L * 2 ^ s)
      by (rewrite <- Z.pow_add_r by lia; f_equal; unfold s; lia).
    apply Z.mul_le_mono_nonneg_r; lia. }
  assert (Hhi : a * 2 ^ s < 2 ^ 77).
  { replace (2 ^ 77) with (2 ^ Z.succ L * 2 ^ s)
      by (rewrite <- Z.pow_add_r by lia; f_equal; unfold s; lia).
    apply Z.mul_lt_mono_pos_r; lia. }
  set (q := (a * 2 ^ s) / 1000000).
  set (r := (a * 2 ^ s) mod 1000000).
  pose proof (Z.div_mod (a * 2 ^ s) 1000000 ltac:(lia)) as Hdm.
  pose proof (Z.mod_pos_bound (a * 2 ^ s) 1000000 ltac:(lia)) as Hr.
  fold q r in Hdm, Hr.
  set (st := if r =? 0 then 0 else 1).
  set (N := 2 * q + st).
  assert (Hst : (st = 0 ∧ r = 0) ∨ (st = 1 ∧ 0 < r)).
  { unfold st. destruct (Z.eqb_spec r 0); lia. }
  assert (HN : 2 ^ 56 ≤ N < 2 ^ 59) by (unfold N; lia).
  assert (HlN : 56 ≤ Z.log2 N < 59).
  { split; [apply Z.log2_le_pow2; lia | apply Z.log2_lt_pow2; lia]. }
  destruct (fround_error N (0 - s - 1) ltac:(lia) ltac:(unfold emin; lia)
              ltac:(lia)) as (m & k & Hm & Hk0 & Hk & Herr & Hround).
  assert (Hk7 : 4 ≤ k ≤ 6) by lia.
  assert (Hpk : 0 < 2 ^ k) by (apply Z.pow_pos_nonneg; lia).
  set (E := s + 1 - k).
  assert (HE : 0 < E ≤ 1074) by (unfold E; lia).
  assert (HS : 2 * 2 ^ s = 2 ^ E * 2 ^ k).
  { rewrite <- Z.pow_add_r by lia. replace (E + k) with (1 + s) by (unfold E; lia).
    rewrite Z.pow_add_r by lia. done. }
  exists m, E. split; [done |]. split; [done |]. split.
  - assert (HE0 : 0 < 2 ^ E) by (apply Z.pow_pos_nonneg; lia).
    (* all in units of [2^-(s+1)] *)
    assert (H1 : Z.abs (N * 1000000 - a * (2 * 2 ^ s)) ≤ 1000000) by lia.
    assert (H2 : 2 ^ 56 * Z.abs (m * 2 ^ k * 1000000 - a * (2 * 2 ^ s))
                 ≤ 10 * (a * (2 * 2 ^ s))).
    { clearbody N q r st s E L. clear Hround Hk Hst Hdm.
      generalize dependent (2 ^ k). generalize dependent (2 ^ s). intros.
      lia. }
    rewrite HS in H2.
    replace (m * 2 ^ k * 1000000 - a * (2 ^ E * 2 ^ k))
      with ((m * 1000000 - a * 2 ^ E) * 2 ^ k) in H2 by ring.
    rewrite Z.abs_mul, (Z.abs_eq (2 ^ k)) in H2 by lia.
    replace (10 * (a * (2 ^ E * 2 ^ k))) with (10 * (a * 2 ^ E) * 2 ^ k) in H2
      by ring.
    rewrite Z.mul_assoc in H2.
    by apply Z.mul_le_mono_pos_r in H2.
  - intros sg Hsg. unfold int_truediv, fround_q, prec.
    assert (Habs : Z.abs (sg * a) = a) by (destruct Hsg as [-> | ->]; lia).
    assert (Hsgn : Z.sgn (sg * a) = sg) by (destruct Hsg as [-> | ->]; lia).
    rewrite Habs, Hsgn. change (Z.log2 1000000) with 19. fold L.
    replace (Z.max 0 (53 + 4 + 19 - L)) with s by (unfold s; lia).
    fold q r st N. rewrite (Hround sg Hsg). f_equal. unfold E. lia.
Qed.

(** Nanoseconds from the seconds: the product with [10**9] rounds once
    more and [int] truncates. *)
Lemma scale_truncate_error (a m E : Z) :
  0 < a → 0 < m ≤ 2 ^ 53 → 0 < E ≤ 1074 →
  2 ^ 56 * Z.abs (m * 1000000 - a * 2 ^ E) ≤ 10 * (a * 2 ^ E) →
  ∃ t, 0 ≤ t ∧ 2 ^ 56 * Z.abs (t - 1000 * a) ≤ 18008 * a + 2 ^ 56 ∧
       ∀ sg, (sg = 1 ∨ sg = -1) →
             int_of_float (fmul (F_fin (sg * m) (- E)) (F_fin 1000000000 0))
             = Ok (sg * t).
Proof.
  intros Ha Hm HE HA.
  assert (HlM : Z.log2 (m * 1000000000) < 84).
  { apply Z.log2_lt_pow2; [lia |].
    apply Z.le_lt_trans with (2 ^ 53 * 1000000000); [lia | done]. }
  pose proof (Z.log2_nonneg (m * 1000000000)) as HlM0.
  destruct (fround_error (m * 1000000000) (- E) ltac:(lia)
              ltac:(unfold emin; lia) ltac:(lia))
    as (m2 & k & Hm2 & Hk0 & Hk & HB & Hround).
  assert (HE0 : 0 < 2 ^ E) by (apply Z.pow_pos_nonneg; lia).
  assert (Hpk : 0 < 2 ^ k) by (apply Z.pow_pos_nonneg; lia).
  (* the truncated value [t], with [t * 2^E ≤ m2 * 2^k < (t + 1) * 2^E] *)
  set (t := if 0 <=? - E + k then m2 * 2 ^ (- E + k)
            else m2 / 2 ^ (- (- E + k))).
  assert (Ht : 0 ≤ t ∧ t * 2 ^ E ≤ m2 * 2 ^ k < t * 2 ^ E + 2 ^ E).
  { unfold t. destruct (Z.leb_spec 0 (- E + k)) as [Hc | Hc].
    - assert (0 < 2 ^ (- E + k)) by (apply Z.pow_pos_nonneg; lia).
      replace (2 ^ k) with (2 ^ (- E + k) * 2 ^ E)
        by (rewrite <- Z.pow_add_r by lia; f_equal; lia).
      split; [lia |]. rewrite !Z.mul_assoc. lia.
    - set (j := - (- E + k)). assert (Hj : 0 < j) by (unfold j; lia).
      assert (Hpj : 0 < 2 ^ j) by (apply Z.pow_pos_nonneg; lia).
      replace (2 ^ E) with (2 ^ j * 2 ^ k)
        by (rewrite <- Z.pow_add_r by lia; f_equal; unfold j; lia).
      pose proof (Z.div_mod m2 (2 ^ j) ltac:(lia)) as Hdm.
      pose proof (Z.mod_pos_bound m2 (2 ^ j) ltac:(lia)) as Hr.
      assert (0 ≤ m2 / 2 ^ j) by (apply Z.div_pos; lia).
      split; [done |].
      rewrite !Z.mul_assoc.
      replace (m2 / 2 ^ j * 2 ^ j) with (m2 - m2 mod 2 ^ j) by lia.
      split; [apply Z.mul_le_mono_nonneg_r; lia |].
      rewrite <- Z.mul_add_distr_r. apply Z.mul_lt_mono_pos_r; lia. }
  exists t. split; [tauto |]. split.
  - destruct Ht as (Ht0 & Htl & Hth).
    assert (H : 2 ^ 56 * Z.abs (t * 2 ^ E - 1000 * (a * 2 ^ E))
                ≤ 18008 * (a * 2 ^ E) + 2 ^ 56 * 2 ^ E).
    { clearbody t. clear Hround Hk.
      generalize dependent (m2 * 2 ^ k). generalize dependent (t * 2 ^ E).
      generalize dependent (a * 2 ^ E). generalize dependent (2 ^ E).
      intros. lia. }
    replace (t * 2 ^ E - 1000 * (a * 2 ^ E)) with ((t - 1000 * a) * 2 ^ E)
      in H by ring.
    rewrite Z.abs_mul, (Z.abs_eq (2 ^ E)) in H by lia.
    replace (18008 * (a * 2 ^ E) + 2 ^ 56 * 2 ^ E)
      with ((18008 * a + 2 ^ 56) * 2 ^ E) in H by ring.
    rewrite Z.mul_assoc in H.
    by apply Z.mul_le_mono_pos_r in H.
  - intros sg Hsg. unfold fmul.
    replace (sg * m * 1000000000) with (sg * (m * 1000000000)) by ring.
    rewrite Z.add_0_r, (Hround sg Hsg). unfold int_of_float. f_equal.
    fold t. unfold t.
    destruct (Z.leb_spec 0 (- E + k)); [ring |].
    assert (0 < 2 ^ (- (- E + k))) by (apply Z.pow_pos_nonneg; lia).
    destruct Hsg as [-> | ->].
    + rewrite !Z.mul_1_l. apply Z.quot_div_nonneg; lia.
    + replace (-1 * m2) with (- m2) by lia.
      rewrite Z.quot_opp_l by lia. rewrite Z.quot_div_nonneg by lia. lia.
Qed.

(** [int(us / 10**6 * 10**9)] for an int of microseconds: defined, of
    the sign of [us], and close to [1000 * us]. *)
Lemma nanoseconds_of_microseconds (us : Z) :
  Z.abs us < 2 ^ 62 →
  ∃ ns, int_of_float (fmul (int_truediv us 1000000) (F_fin 1000000000 0))
        = Ok ns ∧
        2 ^ 56 * (Z.abs (ns - 1000 * us) - 1) ≤ 18008 * Z.abs us ∧
        (0 ≤ us → 0 ≤ ns) ∧ (us ≤ 0 → ns ≤ 0).
Proof.
  intros Hus.
  destruct (Z.eq_dec us 0) as [-> | Hne].
  { exists 0. split; [vm_compute; reflexivity | lia]. }
  set (sg := Z.sgn us). set (a := Z.abs us).
  assert (Hsg : sg = 1 ∨ sg = -1) by (unfold sg; lia).
  assert (Hsa : us = sg * a) by (unfold sg, a; lia).
  assert (Ha : 0 < a < 2 ^ 62) by (unfold a; lia).
  destruct (truediv_million_error a Ha) as (m & E & Hm & HE & HA & Hdiv).
  destruct (scale_truncate_error a m E ltac:(lia) Hm HE HA)
    as (t & Ht0 & Ht & Hmul).
  exists (sg * t). rewrite Hsa at 1. rewrite (Hdiv sg Hsg), (Hmul sg Hsg).
  split; [done |].
  replace (sg * t - 1000 * us) with (sg * (t - 1000 * a)) by (rewrite Hsa; ring).
  rewrite Z.abs_mul. fold a.
  destruct Hsg as [Hs | Hs]; rewrite Hs in *; lia.
Qed.

Lemma days_in_month_bounds (y m : Z) : Datetime.days_in_month y m ≤ 31.
Proof.
  unfold Datetime.days_in_month. destruct (_ && _); [lia |].
  destruct (Z.to_nat m) as [| n]; [cbn; lia |].
  do 12 (destruct n as [| n]; [cbn; lia |]).
  cbn. by destruct n.
Qed.

Lemma days_before_month_bounds (y m : Z) :
  0 ≤ Datetime.days_before_month y m ≤ 335.
Proof.
  unfold Datetime.days_before_month.
  assert (H : 0 ≤ nth (Z.to_nat m) Datetime._days_before_month 0 ≤ 334).
  { destruct (Z.to_nat m) as [| n]; [cbn; lia |].
    do 12 (destruct n as [| n]; [cbn; lia |]).
    cbn. destruct n; lia. }
  destruct (_ && _); lia.
Qed.

Lemma fromisoformat_valid (s : string) (dt : Datetime.datetime) :
  Datetime.fromisoformat s = Ok dt → Datetime.valid dt = true.
Proof.
  unfold Datetime.fromisoformat.
  destruct (Datetime.parse _) as [dt' |]; [| done].
  destruct (Datetime.valid dt') eqn:Hv; [| done]. by intros [= <-].
Qed.

(** A datetime that passes the range checks of its constructor lies
    less than [2^62] microseconds from the epoch. *)
Lemma epoch_microseconds_range (dt : Datetime.datetime) (off : Z) :
  Datetime.valid dt = true → Datetime.utcoffset dt = Some off →
  Z.abs (Datetime.epoch_microseconds dt off) < 2 ^ 62.
Proof.
  intros Hv Hoff.
  unfold Datetime.valid in Hv. rewrite Hoff in Hv. unfold Datetime.day_us in Hv.
  rewrite !andb_true_iff, !Z.leb_le, !Z.ltb_lt in Hv. destruct_and!.
  pose proof (days_in_month_bounds (Datetime.year dt) (Datetime.month dt)).
  pose proof (days_before_month_bounds (Datetime.year dt) (Datetime.month dt)).
  unfold Datetime.epoch_microseconds, Datetime.wall_seconds,
    Datetime.ymd_to_ord, Datetime.days_before_year, Datetime.epoch_ordinal.
  set (p := Datetime.year dt - 1).
  assert (Hp : 0 ≤ p ≤ 9998) by (unfold p; lia).
  assert (0 ≤ p / 4 ≤ 2499) by (clear -Hp; Z.div_mod_to_equations; lia).
  assert (0 ≤ p / 100 ≤ 99) by (clear -Hp; Z.div_mod_to_equations; lia).
  assert (0 ≤ p / 400 ≤ 24) by (clear -Hp; Z.div_mod_to_equations; lia).
  generalize dependent (p / 4). generalize dependent (p / 100).
  generalize dependent (p / 400).
  generalize dependent (Datetime.days_before_month (Datetime.year dt)
                          (Datetime.month dt)).
  generalize dependent (Datetime.days_in_month (Datetime.year dt)
                          (Datetime.month dt)).
  clearbody p. intros. change (2 ^ 62) with 4611686018427387904. lia.
Qed.

(** Extra X19.  Every timestamp that [fromisoformat] accepts with a UTC
    offset (a trailing [Z] included) converts: [_iso_to_ns] returns, and
    its result has the sign of the exact count of microseconds [us] from
    the epoch and differs from the exact [1000 * us] nanoseconds by at
    most [|us| / 2^41 + 1], which is less than a microsecond while
    [|us| < 2^51] (1898 to 2041). *)
Theorem iso_to_ns_defined_and_close (s : string) (dt : Datetime.datetime)
    (off : Z) :
  Datetime.fromisoformat (replace_Z s) = Ok dt →
  Datetime.utcoffset dt = Some off →
  ∃ ns, _iso_to_ns (JStr s) = Ok ns ∧
        Z.abs (ns - 1000 * Datetime.epoch_microseconds dt off)
        ≤ Z.abs (Datetime.epoch_microseconds dt off) / 2 ^ 41 + 1 ∧
        (Z.abs (Datetime.epoch_microseconds dt off) < 2 ^ 51 →
         Z.abs (ns - 1000 * Datetime.epoch_microseconds dt off) < 1000) ∧
        (0 ≤ Datetime.epoch_microseconds dt off → 0 ≤ ns) ∧
        (Datetime.epoch_microseconds dt off ≤ 0 → ns ≤ 0).
Proof.
  intros Hparse Hoff.
  pose proof (epoch_microseconds_range _ _ (fromisoformat_valid _ _ Hparse)
                Hoff) as Hr.
  destruct (nanoseconds_of_microseconds _ Hr) as (ns & Hns & Herr & Hpos & Hneg).
  exists ns. split.
  { unfold _iso_to_ns. rewrite Hparse. cbn [mbind pyresult_bind].
    unfold Datetime.timestamp. by rewrite Hoff. }
  set (us := Datetime.epoch_microseconds dt off) in *.
  change (2 ^ 56) with (32768 * 2 ^ 41) in Herr.
  split; [| split; [| done]].
  - assert (Z.abs (ns - 1000 * us) - 1 ≤ Z.abs us / 2 ^ 41); [| lia].
    apply Z.div_le_lower_bound; [done |].
    pose proof (Z.abs_nonneg us).
    change (2 ^ 41) with 2199023255552 in *.
    generalize dependent (Z.abs (ns - 1000 * us)).
    generalize dependent (Z.abs us). intros. lia.
  - change (2 ^ 41) with 2199023255552 in Herr.
    change (2 ^ 51) with 2251799813685248. lia.
Qed.

Lemma iso_to_ns_defined_and_close_witness :
  ∃ ns, _iso_to_ns (JStr "2026-02-04T17:00:47.123456Z") = Ok ns ∧
        Z.abs (ns - 1000 * Datetime.epoch_microseconds instant_A 0)
        ≤ Z.abs (Datetime.epoch_microseconds instant_A 0) / 2 ^ 41 + 1 ∧
        (Z.abs (Datetime.epoch_microseconds instant_A 0) < 2 ^ 51 →
         Z.abs (ns - 1000 * Datetime.epoch_microseconds instant_A 0) < 1000) ∧
        (0 ≤ Datetime.epoch_microseconds instant_A 0 → 0 ≤ ns) ∧
        (Datetime.epoch_microseconds instant_A 0 ≤ 0 → ns ≤ 0).
Proof.
  apply (iso_to_ns_defined_and_close "2026-02-04T17:00:47.123456Z"
           instant_A 0); vm_compute; reflexivity.
Defined.
